(** * Nintendo Wii platform glue: OHCI over 'mini' IPC and board support

    A shallow embedding of

    - [drivers/usb/host/ohci-mipc.c]: the bus glue that brings an OHCI
      host controller up and down on the of_platform bus, and
    - [arch/powerpc/platforms/embedded6xx/wii.c]: the board's restart,
      power-off and kexec hooks,

    together with the properties of their sequencing.

    Both files are straight-line C that calls into the rest of the kernel.
    Every call of a function that lives outside the two files is recorded
    as an [event] in a chronological trace; what such a function answers is
    supplied by a record of answers ([kernel], [firmware]), so a theorem
    quantified over that record holds however the collaborators behave. *)

From Stdlib Require Import ZArith List String Lia Bool.
From stdpp Require Import base tactics option list strings functions.
Import ListNotations.

#[local] Open Scope Z_scope.

(** C integer conversions: an unsigned [bits]-wide value. *)
Definition wrap (bits : Z) (x : Z) : Z := x mod 2 ^ bits.

(** The line feed that ends the kernel's log messages. *)
Definition nl : string := String (Ascii.ascii_of_nat 10) EmptyString.

(** ** drivers/usb/host/ohci-mipc.c *)
Module OhciMipc.

(** Constants of kernel headers that the file includes:
    [errno.h], [irq.h], [interrupt.h], [ioport.h] and [asm/starlet.h]. *)
Class kernel_headers := KernelHeaders {
  ENODEV : Z;
  ENOMEM : Z;
  EBUSY : Z;
  NO_IRQ : Z;
  STARLET_IPC_MINI : Z;
  IRQF_DISABLED : Z;
  resource_size_bits : Z   (* width of resource_size_t *)
}.

(** The values of a 32-bit PowerPC build of Linux 2.6. *)
Definition linux_headers : kernel_headers :=
  {| ENODEV := 19; ENOMEM := 12; EBUSY := 16; NO_IRQ := 0;
     STARLET_IPC_MINI := 1; IRQF_DISABLED := 32; resource_size_bits := 32 |}.

Definition DRV_MODULE_NAME : string := "ohci-mipc".
Definition DRV_DESCRIPTION : string := "USB Open Host Controller Interface for MINI".
Definition DRV_AUTHOR : string := "Albert Herranz".
Definition FILE__ : string := "drivers/usb/host/ohci-mipc.c".

Definition HOLLYWOOD_EHCI_CTL : Z := 0x0d0400cc.
Definition HOLLYWOOD_EHCI_CTL_OH0INTE : Z := Z.shiftl 1 11.
Definition HOLLYWOOD_EHCI_CTL_OH1INTE : Z := Z.shiftl 1 12.

(** [struct resource], the two fields the probe reads. *)
Record resource := Resource { res_start : Z; res_end : Z }.

(** [struct usb_hcd]: the address of the object (a non-NULL pointer is
    this record, NULL is [None]) and the fields the file reads or writes. *)
Record usb_hcd := UsbHcd {
  hcd_addr : Z;
  rsrc_start : Z;
  rsrc_len : Z;
  hcd_regs : Z;
  hcd_irq : Z;
  self_bus_name : string
}.

Definition set_rsrc_start (v : Z) (h : usb_hcd) : usb_hcd :=
  UsbHcd (hcd_addr h) v (rsrc_len h) (hcd_regs h) (hcd_irq h) (self_bus_name h).
Definition set_rsrc_len (v : Z) (h : usb_hcd) : usb_hcd :=
  UsbHcd (hcd_addr h) (rsrc_start h) v (hcd_regs h) (hcd_irq h) (self_bus_name h).
Definition set_hcd_regs (v : Z) (h : usb_hcd) : usb_hcd :=
  UsbHcd (hcd_addr h) (rsrc_start h) (rsrc_len h) v (hcd_irq h) (self_bus_name h).

(** [struct ohci_hcd] is the private area at the end of its [usb_hcd];
    [hcd_to_ohci] and [ohci_to_hcd] convert between the two pointers. *)
Record ohci_hcd := OhciHcd { ohci_to_hcd : usb_hcd }.
Definition hcd_to_ohci (hcd : usb_hcd) : ohci_hcd := OhciHcd hcd.

(** [struct of_device]: the device-tree node and the embedded device. *)
Record of_device := OfDevice { node : Z; dev : Z }.

Inductive loglevel := KERN_ERR.

(** One entry per call that leaves the file, with arguments and answer. *)
Inductive event :=
| Eusb_disabled (r : Z)
| Estarlet_get_ipc_flavour (r : Z)
| Edev_dbg (dev : Z) (msg : string)
| Eof_address_to_resource (dn index : Z) (r : Z) (res : resource)
| Eusb_create_hcd (dev : Z) (name : string) (r : option usb_hcd)
| Eirq_of_parse_and_map (dn index : Z) (r : Z)
| Eprintk (lvl : loglevel) (msg : string)
| Eohci_hcd_init (ohci : ohci_hcd)
| Eusb_add_hcd (hcd : usb_hcd) (irq flags : Z) (r : Z)
| Eirq_dispose_mapping (irq : Z)
| Eusb_put_hcd (hcd : usb_hcd)
| Eusb_remove_hcd (hcd : usb_hcd)
| Edev_get_drvdata (dev : Z) (r : option usb_hcd)
| Edev_set_drvdata (dev : Z) (data : option usb_hcd)
| Eohci_init (ohci : ohci_hcd) (r : Z)
| Eohci_run (ohci : ohci_hcd) (r : Z)
| Eohci_stop (hcd : usb_hcd)
| Eerr (fmt : string) (args : list string)
| Emipc_in_be32 (addr : Z) (r : Z)
| Emipc_out_be32 (addr : Z) (val : Z).

(** What the file can observe and change: the 32-bit registers behind the
    'mini' IPC channel and the trace of calls made so far (oldest first). *)
Record world := World {
  regs : Z → Z;
  trace : list event
}.

(** The answers of the collaborators.  The engine's three entry points may
    also rewrite the registers. *)
Record kernel := Kernel {
  k_usb_disabled : Z;
  k_starlet_get_ipc_flavour : Z;
  k_of_address_to_resource : Z → Z → Z * resource;
  k_usb_create_hcd : Z → string → option usb_hcd;
  k_irq_of_parse_and_map : Z → Z → Z;
  k_usb_add_hcd : usb_hcd → Z → Z → Z;
  k_dev_get_drvdata : Z → option usb_hcd;
  k_ohci_init : ohci_hcd → (Z → Z) → Z * (Z → Z);
  k_ohci_run : ohci_hcd → (Z → Z) → Z * (Z → Z);
  k_ohci_stop : usb_hcd → (Z → Z) → (Z → Z)
}.

(** *** A state monad with a fault, for a NULL dereference *)
Definition M (A : Type) : Type := world → option (A * world).

#[export] Instance M_ret : MRet M := λ A a w, Some (a, w).
#[export] Instance M_bind : MBind M := λ A B k m w,
  match m w with
  | Some (a, w') => k a w'
  | None => None
  end.

Definition oops {A} : M A := λ _, None.

Definition emit (e : event) : M unit :=
  λ w, Some (tt, World (regs w) (trace w ++ [e])).

Definition get_regs : M (Z → Z) := λ w, Some (regs w, w).
Definition put_regs (r : Z → Z) : M unit :=
  λ w, Some (tt, World r (trace w)).

(** Dereferencing a pointer. *)
Definition deref {A} (p : option A) : M A :=
  match p with
  | Some a => mret a
  | None => oops
  end.

(** The shared interrupt-control value that [ohci_mipc_start] writes back:
    [mipc_in_be32(ehci_ctl) | 0xe0000 | OH0INTE | OH1INTE]. *)
Definition ehci_ctl_enable (v : Z) : Z :=
  Z.lor (Z.lor (Z.lor v 0xe0000) HOLLYWOOD_EHCI_CTL_OH0INTE)
        HOLLYWOOD_EHCI_CTL_OH1INTE.

Section Driver.
Context `{kernel_headers}.
Variable K : kernel.

(** Modelled from the spec: [mipc_in_be32] and [mipc_out_be32] are the
    accessors of [asm/starlet.h], absent from the sources; the spec's
    shared interrupt-enable sequence reads the register and writes it
    back, so they are a register read and a register write. *)
Definition mipc_in_be32 (addr : Z) : M Z :=
  r ← get_regs;
  emit (Emipc_in_be32 addr (r addr));;
  mret (r addr).

Definition mipc_out_be32 (addr : Z) (val : Z) : M unit :=
  r ← get_regs;
  put_regs (<[addr := val]> r);;
  emit (Emipc_out_be32 addr val).

(** The engine of ohci-hcd.c, absent from the sources: answers come from
    [K]. *)
Definition ohci_init (ohci : ohci_hcd) : M Z :=
  r ← get_regs;
  let '(e, r') := k_ohci_init K ohci r in
  put_regs r';;
  emit (Eohci_init ohci e);;
  mret e.

Definition ohci_run (ohci : ohci_hcd) : M Z :=
  r ← get_regs;
  let '(e, r') := k_ohci_run K ohci r in
  put_regs r';;
  emit (Eohci_run ohci e);;
  mret e.

Definition ohci_stop (hcd : usb_hcd) : M unit :=
  r ← get_regs;
  put_regs (k_ohci_stop K hcd r);;
  emit (Eohci_stop hcd).

Definition err (fmt : string) (args : list string) : M unit :=
  emit (Eerr fmt args).

(** [ohci_mipc_start]; the label [out] is [mret error]. *)
Definition ohci_mipc_start (hcd : usb_hcd) : M Z :=
  let ohci := hcd_to_ohci hcd in
  let ehci_ctl := HOLLYWOOD_EHCI_CTL in
  error ← ohci_init ohci;
  if negb (error =? 0) then mret error else
  (* enable notification of OHCI interrupts *)
  v ← mipc_in_be32 ehci_ctl;
  mipc_out_be32 ehci_ctl (ehci_ctl_enable v);;
  error ← ohci_run ohci;
  if negb (error =? 0) then
    err "can't start %s" [self_bus_name (ohci_to_hcd ohci)];;
    ohci_stop hcd;;
    mret error
  else
    mret error.

(** The collaborators of the probe and remove paths, absent from the
    sources: each call is recorded and answered by [K]. *)
Definition usb_disabled : M Z :=
  let r := k_usb_disabled K in
  emit (Eusb_disabled r);; mret r.

Definition starlet_get_ipc_flavour : M Z :=
  let r := k_starlet_get_ipc_flavour K in
  emit (Estarlet_get_ipc_flavour r);; mret r.

Definition dev_dbg (dev : Z) (msg : string) : M unit :=
  emit (Edev_dbg dev msg).

Definition printk (lvl : loglevel) (msg : string) : M unit :=
  emit (Eprintk lvl msg).

Definition of_address_to_resource (dn index : Z) : M (Z * resource) :=
  let r := k_of_address_to_resource K dn index in
  emit (Eof_address_to_resource dn index r.1 r.2);; mret r.

Definition usb_create_hcd (dev : Z) (name : string) : M (option usb_hcd) :=
  let r := k_usb_create_hcd K dev name in
  emit (Eusb_create_hcd dev name r);; mret r.

Definition irq_of_parse_and_map (dn index : Z) : M Z :=
  let r := k_irq_of_parse_and_map K dn index in
  emit (Eirq_of_parse_and_map dn index r);; mret r.

Definition ohci_hcd_init (ohci : ohci_hcd) : M unit :=
  emit (Eohci_hcd_init ohci).

Definition usb_add_hcd (hcd : usb_hcd) (irq flags : Z) : M Z :=
  let r := k_usb_add_hcd K hcd irq flags in
  emit (Eusb_add_hcd hcd irq flags r);; mret r.

Definition irq_dispose_mapping (irq : Z) : M unit :=
  emit (Eirq_dispose_mapping irq).

Definition usb_put_hcd (hcd : usb_hcd) : M unit :=
  emit (Eusb_put_hcd hcd).

Definition usb_remove_hcd (hcd : usb_hcd) : M unit :=
  emit (Eusb_remove_hcd hcd).

Definition dev_get_drvdata (dev : Z) : M (option usb_hcd) :=
  let r := k_dev_get_drvdata K dev in
  emit (Edev_get_drvdata dev r);; mret r.

Definition dev_set_drvdata (dev : Z) (data : option usb_hcd) : M unit :=
  emit (Edev_set_drvdata dev data).

(** The three labels at the end of [ohci_hcd_mipc_probe]; each falls
    through to the next. *)
Definition out (error : Z) : M Z := mret error.

Definition err_irq (hcd : usb_hcd) (error : Z) : M Z :=
  usb_put_hcd hcd;;
  out error.

Definition err_add_hcd (irq : Z) (hcd : usb_hcd) (error : Z) : M Z :=
  irq_dispose_mapping irq;;
  err_irq hcd error.

(** [ohci_hcd_mipc_probe].  [unsigned long] has 32 bits on the
    embedded6xx platforms. *)
Definition ohci_hcd_mipc_probe (op : of_device) : M Z :=
  let dn := node op in
  disabled ← usb_disabled;
  if negb (disabled =? 0) then mret (- ENODEV) else
  flavour ← starlet_get_ipc_flavour;
  if negb (flavour =? STARLET_IPC_MINI) then mret (- ENODEV) else
  dev_dbg (dev op)
    ("initializing " +:+ DRV_MODULE_NAME +:+ " USB Controller" +:+ nl);;
  '(error, res) ← of_address_to_resource dn 0;
  if negb (error =? 0) then out error else
  hcd ← usb_create_hcd (dev op) DRV_MODULE_NAME;
  match hcd with
  | None => out (- ENOMEM)
  | Some hcd =>
    let hcd := set_rsrc_start (res_start res) hcd in
    let hcd :=
      set_rsrc_len (wrap resource_size_bits (res_end res - res_start res + 1))
                   hcd in
    irq ← irq_of_parse_and_map dn 0;
    if irq =? NO_IRQ then
      printk KERN_ERR (FILE__ +:+ ": irq_of_parse_and_map failed" +:+ nl);;
      err_irq hcd (- EBUSY)
    else
      let hcd := set_hcd_regs (wrap 32 (rsrc_start hcd)) hcd in
      let ohci := hcd_to_ohci hcd in
      ohci_hcd_init ohci;;
      error ← usb_add_hcd hcd irq IRQF_DISABLED;
      if negb (error =? 0) then err_add_hcd irq hcd error else
      mret 0
  end.

(** [ohci_hcd_mipc_remove].  [usb_remove_hcd] dereferences its argument
    at once, so a NULL handle faults there. *)
Definition ohci_hcd_mipc_remove (op : of_device) : M Z :=
  hcd ← dev_get_drvdata (dev op);
  dev_set_drvdata (dev op) None;;
  dev_dbg (dev op)
    ("stopping " +:+ DRV_MODULE_NAME +:+ " USB Controller" +:+ nl);;
  hcd ← deref hcd;
  usb_remove_hcd hcd;;
  irq_dispose_mapping (hcd_irq hcd);;
  usb_put_hcd hcd;;
  mret 0.

(** *** Two controllers starting at once

    [ohci_mipc_start] runs once per controller, and the two controllers of
    the board (slot 0 and slot 1) share the register at
    [HOLLYWOOD_EHCI_CTL].  The file takes no lock around its
    read-modify-write, so between the read and the write of one slot the
    other slot may run.  A [sched] picks, step by step, which slot makes
    its next register access. *)
Inductive slot := Slot0 | Slot1.

Inductive rmw :=
| AtRead                (* before mipc_in_be32 *)
| AtWrite (v : Z)       (* value read, before mipc_out_be32 *)
| Finished.

Record sys := Sys {
  shared : world;
  thr0 : rmw;
  thr1 : rmw
}.

Definition thr (σ : sys) (s : slot) : rmw :=
  match s with Slot0 => thr0 σ | Slot1 => thr1 σ end.

Definition set_thr (s : slot) (t : rmw) (w : world) (σ : sys) : sys :=
  match s with
  | Slot0 => Sys w t (thr1 σ)
  | Slot1 => Sys w (thr0 σ) t
  end.

(** The next register access of slot [s]. *)
Definition sys_step (s : slot) (σ : sys) : sys :=
  match thr σ s with
  | AtRead =>
    match mipc_in_be32 HOLLYWOOD_EHCI_CTL (shared σ) with
    | Some (v, w) => set_thr s (AtWrite v) w σ
    | None => σ
    end
  | AtWrite v =>
    match mipc_out_be32 HOLLYWOOD_EHCI_CTL (ehci_ctl_enable v) (shared σ) with
    | Some (_, w) => set_thr s Finished w σ
    | None => σ
    end
  | Finished => σ
  end.

Definition sys_run (sched : list slot) (σ : sys) : sys :=
  fold_left (λ σ s, sys_step s σ) sched σ.

Definition sys_init (w : world) : sys := Sys w AtRead AtRead.

Definition both_finished (σ : sys) : bool :=
  match thr0 σ, thr1 σ with
  | Finished, Finished => true
  | _, _ => false
  end.

(** A slot is inside its read-modify-write once it has read and not yet
    written. *)
Definition in_rmw (t : rmw) : bool :=
  match t with AtWrite _ => true | _ => false end.

(** *** Resources held along a trace

    The probe acquires a controller handle ([usb_create_hcd]), an
    interrupt mapping ([irq_of_parse_and_map]) and a bus registration
    ([usb_add_hcd]); [usb_put_hcd], [irq_dispose_mapping] and
    [usb_remove_hcd] give them back. *)
Inductive token :=
| THcd (addr : Z)
| TIrq (irq : Z)
| TBus (addr : Z).

#[export] Instance token_eq_dec : EqDecision token.
Proof. solve_decision. Defined.

Definition acquires (e : event) : option token :=
  match e with
  | Eusb_create_hcd _ _ (Some h) => Some (THcd (hcd_addr h))
  | Eirq_of_parse_and_map _ _ r => if r =? NO_IRQ then None else Some (TIrq r)
  | Eusb_add_hcd h _ _ r => if r =? 0 then Some (TBus (hcd_addr h)) else None
  | _ => None
  end.

Definition releases (e : event) : option token :=
  match e with
  | Eusb_put_hcd h => Some (THcd (hcd_addr h))
  | Eirq_dispose_mapping irq => Some (TIrq irq)
  | Eusb_remove_hcd h => Some (TBus (hcd_addr h))
  | _ => None
  end.

Definition acquired (t : list event) : list token := omap acquires t.
Definition released (t : list event) : list token := omap releases t.

(** The resources still held after [t], most recent first, when [t] gives
    resources back in the reverse order of their acquisition; [None] when
    it gives back something else than the most recent one. *)
Fixpoint settle (held : list token) (t : list event) : option (list token) :=
  match t with
  | [] => Some held
  | e :: t' =>
    match acquires e, releases e with
    | Some a, _ => settle (a :: held) t'
    | None, Some r =>
      match held with
      | h :: held' => if decide (h = r) then settle held' t' else None
      | [] => None
      end
    | None, None => settle held t'
    end
  end.

(** The handle as the probe has filled it in when it reaches
    [usb_add_hcd]. *)
Definition bound_hcd (res : resource) (h : usb_hcd) : usb_hcd :=
  let h := set_rsrc_start (res_start res) h in
  let h :=
    set_rsrc_len (wrap resource_size_bits (res_end res - res_start res + 1)) h in
  set_hcd_regs (wrap 32 (rsrc_start h)) h.

(** Every step of the probe succeeds under [K]. *)
Definition all_steps_succeed (op : of_device) : bool :=
  (k_usb_disabled K =? 0) &&
  (k_starlet_get_ipc_flavour K =? STARLET_IPC_MINI) &&
  ((k_of_address_to_resource K (node op) 0).1 =? 0) &&
  match k_usb_create_hcd K (dev op) DRV_MODULE_NAME with
  | None => false
  | Some h =>
    let irq := k_irq_of_parse_and_map K (node op) 0 in
    negb (irq =? NO_IRQ) &&
    (k_usb_add_hcd K
       (bound_hcd (k_of_address_to_resource K (node op) 0).2 h)
       irq IRQF_DISABLED =? 0)
  end.

End Driver.

(** *** Observations on a trace *)

(** The register writes of a trace, oldest first. *)
Definition writes (t : list event) : list (Z * Z) :=
  omap (λ e, match e with
             | Emipc_out_be32 addr val => Some (addr, val)
             | _ => None
             end) t.

(** The messages of a trace that reach the log at error level. *)
Definition diagnostics (t : list event) : list event :=
  List.filter (λ e, match e with
                    | Eerr _ _ | Eprintk KERN_ERR _ => true
                    | _ => false
                    end) t.

(** The engine stops requested in a trace. *)
Definition stops (t : list event) : list usb_hcd :=
  omap (λ e, match e with Eohci_stop h => Some h | _ => None end) t.

(** Everything [ohci_mipc_start] ORs into the shared register. *)
Definition ehci_ctl_bits : Z :=
  Z.lor (Z.lor 0xe0000 HOLLYWOOD_EHCI_CTL_OH0INTE) HOLLYWOOD_EHCI_CTL_OH1INTE.

Definition slot_enable_bit (s : slot) : Z :=
  match s with
  | Slot0 => HOLLYWOOD_EHCI_CTL_OH0INTE
  | Slot1 => HOLLYWOOD_EHCI_CTL_OH1INTE
  end.

(** What a sequence that ORed in the fixed mask and the enable bit of slot
    [s] alone would write over [v]. *)
Definition own_slot_enable (s : slot) (v : Z) : Z :=
  Z.lor (Z.lor v 0xe0000) (slot_enable_bit s).

(** *** Readings of the interrupt-enable sequence that the file does not
    implement, kept to compare them with what it does *)

(** When [ohci_init] has succeeded and the start fails all the same, the
    enable bit of slot [s] is clear again when [ohci_mipc_start]
    returns. *)
Definition enable_bit_cleared_on_failure
    (K : kernel) (hcd : usb_hcd) (w : world) (s : slot) : Prop :=
  (k_ohci_init K (hcd_to_ohci hcd) (regs w)).1 = 0 →
  ∀ e w', ohci_mipc_start K hcd w = Some (e, w') → e ≠ 0 →
    Z.land (regs w' HOLLYWOOD_EHCI_CTL) (slot_enable_bit s) = 0.

(** The start of the controller in slot [s] writes the old value ORed with
    the fixed mask and the enable bit of [s] alone. *)
Definition writes_own_slot_only
    (K : kernel) (hcd : usb_hcd) (w : world) (s : slot) : Prop :=
  ∀ e w', ohci_mipc_start K hcd w = Some (e, w') →
    writes (drop (length (trace w)) (trace w')) =
      [(HOLLYWOOD_EHCI_CTL,
        own_slot_enable s ((k_ohci_init K (hcd_to_ohci hcd) (regs w)).2
                             HOLLYWOOD_EHCI_CTL))].

(** A node whose register window resolves and whose interrupt line does
    not map makes the probe fail with the interrupt-line error without
    anything having been allocated. *)
Definition irq_failure_allocates_nothing `{kernel_headers}
    (K : kernel) (op : of_device) (w : world) : Prop :=
  (k_of_address_to_resource K (node op) 0).1 = 0 →
  k_irq_of_parse_and_map K (node op) 0 = NO_IRQ →
  ∃ t,
    ohci_hcd_mipc_probe K op w
      = Some (- EBUSY, World (regs w) (trace w ++ t)) ∧
    acquired t = [].

(** No two slots are inside their read-modify-write at once. *)
Definition exclusive (σ : sys) : bool :=
  negb (in_rmw (thr0 σ) && in_rmw (thr1 σ)).

Definition mutually_exclusive (w : world) : Prop :=
  ∀ sched, exclusive (sys_run sched (sys_init w)) = true.

(** What holds of two interleaved starts at every step, [v] being the
    shared register's value before either slot has read it and [r0] the
    registers at that time. *)
Definition rmw_ok (v : Z) (σ : sys) (t : rmw) : Prop :=
  match t with
  | AtRead => True
  | AtWrite x => x = v ∨ x = ehci_ctl_enable v
  | Finished => regs (shared σ) HOLLYWOOD_EHCI_CTL = ehci_ctl_enable v
  end.

Definition rmw_inv (r0 : Z → Z) (σ : sys) : Prop :=
  let v := r0 HOLLYWOOD_EHCI_CTL in
  (regs (shared σ) HOLLYWOOD_EHCI_CTL = v ∨
   regs (shared σ) HOLLYWOOD_EHCI_CTL = ehci_ctl_enable v) ∧
  rmw_ok v σ (thr0 σ) ∧ rmw_ok v σ (thr1 σ) ∧
  ∀ a, a ≠ HOLLYWOOD_EHCI_CTL → regs (shared σ) a = r0 a.

(** *** Sample inputs *)

Definition sample_hcd : usb_hcd :=
  UsbHcd 0x1000 0 0 0 0 "usb1".

Definition sample_op : of_device := OfDevice 7 9.

Definition sample_world : world := World (λ _, 0) [].

(** A kernel in which every step succeeds, except that the engine's
    [ohci_run] fails with code 5; the engine leaves the registers alone. *)
Definition run_fails : kernel :=
  {| k_usb_disabled := 0;
     k_starlet_get_ipc_flavour := 1;
     k_of_address_to_resource := λ _ _, (0, Resource 0x0d060000 0x0d0601ff);
     k_usb_create_hcd := λ _ _, Some sample_hcd;
     k_irq_of_parse_and_map := λ _ _, 5;
     k_usb_add_hcd := λ _ _ _, 5;
     k_dev_get_drvdata := λ _, Some sample_hcd;
     k_ohci_init := λ _ r, (0, r);
     k_ohci_run := λ _ r, (5, r);
     k_ohci_stop := λ _ r, r |}.

(** A kernel in which every step succeeds. *)
Definition all_fine : kernel :=
  {| k_usb_disabled := 0;
     k_starlet_get_ipc_flavour := 1;
     k_of_address_to_resource := λ _ _, (0, Resource 0x0d060000 0x0d0601ff);
     k_usb_create_hcd := λ _ _, Some sample_hcd;
     k_irq_of_parse_and_map := λ _ _, 5;
     k_usb_add_hcd := λ _ _ _, 0;
     k_dev_get_drvdata := λ _, Some sample_hcd;
     k_ohci_init := λ _ r, (0, r);
     k_ohci_run := λ _ r, (0, r);
     k_ohci_stop := λ _ r, r |}.

(** A kernel in which the register window resolves and the handle is
    allocated, but the interrupt line does not map. *)
Definition no_irq : kernel :=
  {| k_usb_disabled := 0;
     k_starlet_get_ipc_flavour := 1;
     k_of_address_to_resource := λ _ _, (0, Resource 0x0d060000 0x0d0601ff);
     k_usb_create_hcd := λ _ _, Some sample_hcd;
     k_irq_of_parse_and_map := λ _ _, 0;
     k_usb_add_hcd := λ _ _ _, 0;
     k_dev_get_drvdata := λ _, None;
     k_ohci_init := λ _ r, (0, r);
     k_ohci_run := λ _ r, (0, r);
     k_ohci_stop := λ _ r, r |}.

(** *** Progress of two interleaved starts *)



(** How many slots have written the register back. *)
Definition is_finished (t : rmw) : bool :=
  match t with Finished => true | _ => false end.

Definition finished (σ : sys) : nat :=
  (if is_finished (thr0 σ) then 1 else 0)%nat +
  (if is_finished (thr1 σ) then 1 else 0)%nat.

(** *** More sample inputs *)

(** A kernel in which the USB core is disabled. *)
Definition usb_off : kernel :=
  {| k_usb_disabled := 1;
     k_starlet_get_ipc_flavour := 1;
     k_of_address_to_resource := λ _ _, (0, Resource 0x0d060000 0x0d0601ff);
     k_usb_create_hcd := λ _ _, Some sample_hcd;
     k_irq_of_parse_and_map := λ _ _, 5;
     k_usb_add_hcd := λ _ _ _, 0;
     k_dev_get_drvdata := λ _, None;
     k_ohci_init := λ _ r, (0, r);
     k_ohci_run := λ _ r, (0, r);
     k_ohci_stop := λ _ r, r |}.

(** A kernel in which the node has no register window: the lookup fails
    with code -22. *)
Definition no_window : kernel :=
  {| k_usb_disabled := 0;
     k_starlet_get_ipc_flavour := 1;
     k_of_address_to_resource := λ _ _, (-22, Resource 0 0);
     k_usb_create_hcd := λ _ _, Some sample_hcd;
     k_irq_of_parse_and_map := λ _ _, 5;
     k_usb_add_hcd := λ _ _ _, 0;
     k_dev_get_drvdata := λ _, None;
     k_ohci_init := λ _ r, (0, r);
     k_ohci_run := λ _ r, (0, r);
     k_ohci_stop := λ _ r, r |}.

(** A kernel that has no memory left for the handle. *)
Definition no_memory : kernel :=
  {| k_usb_disabled := 0;
     k_starlet_get_ipc_flavour := 1;
     k_of_address_to_resource := λ _ _, (0, Resource 0x0d060000 0x0d0601ff);
     k_usb_create_hcd := λ _ _, None;
     k_irq_of_parse_and_map := λ _ _, 5;
     k_usb_add_hcd := λ _ _ _, 0;
     k_dev_get_drvdata := λ _, None;
     k_ohci_init := λ _ r, (0, r);
     k_ohci_run := λ _ r, (0, r);
     k_ohci_stop := λ _ r, r |}.

(** A kernel whose engine fails to initialise, with code -12. *)
Definition init_fails : kernel :=
  {| k_usb_disabled := 0;
     k_starlet_get_ipc_flavour := 1;
     k_of_address_to_resource := λ _ _, (0, Resource 0x0d060000 0x0d0601ff);
     k_usb_create_hcd := λ _ _, Some sample_hcd;
     k_irq_of_parse_and_map := λ _ _, 5;
     k_usb_add_hcd := λ _ _ _, -12;
     k_dev_get_drvdata := λ _, None;
     k_ohci_init := λ _ r, (-12, r);
     k_ohci_run := λ _ r, (0, r);
     k_ohci_stop := λ _ r, r |}.

(** The sample handle as the bus holds it once registered on interrupt
    5, and a kernel whose driver data holds it. *)
Definition registered_hcd : usb_hcd :=
  UsbHcd 0x1000 0x0d060000 0x200 0x0d060000 5 "usb1".

Definition registered : kernel :=
  {| k_usb_disabled := 0;
     k_starlet_get_ipc_flavour := 1;
     k_of_address_to_resource := λ _ _, (0, Resource 0x0d060000 0x0d0601ff);
     k_usb_create_hcd := λ _ _, Some sample_hcd;
     k_irq_of_parse_and_map := λ _ _, 5;
     k_usb_add_hcd := λ _ _ _, 0;
     k_dev_get_drvdata := λ _, Some registered_hcd;
     k_ohci_init := λ _ r, (0, r);
     k_ohci_run := λ _ r, (0, r);
     k_ohci_stop := λ _ r, r |}.

(** Registers in which the enable sequence has already run once. *)
Definition enabled_world : world :=
  World (<[HOLLYWOOD_EHCI_CTL := ehci_ctl_enable 0]> (λ _, 0)) [].

End OhciMipc.

(** ** arch/powerpc/platforms/embedded6xx/wii.c *)
Module Wii.

Inductive event :=
| Elocal_irq_disable
| Estarlet_es_reload_ios_and_launch (title : Z)
| Estarlet_stm_restart
| Estarlet_stm_power_off
| Estarlet_es_reload_ios_and_discard
| Edefault_machine_kexec (image : Z)
| Eexi_quiesce
| Ecpu_relax.

(** The interrupt-enable state of the processor and the calls made so far
    (oldest first). *)
Record world := World {
  irqs_enabled : bool;
  trace : list event
}.

(** Whether a call that may hand the machine over does so ([Handled]:
    control never comes back) or returns to its caller ([FellThrough]). *)
Inductive PowerSequenceOutcome := Handled | FellThrough.

(** The behaviour of the firmware calls of [asm/starlet.h] and of
    [default_machine_kexec]. *)
Record firmware := Firmware {
  f_es_reload_ios_and_launch : Z → PowerSequenceOutcome;
  f_stm_restart : PowerSequenceOutcome;
  f_stm_power_off : PowerSequenceOutcome;
  f_es_reload_ios_and_discard : PowerSequenceOutcome;
  f_default_machine_kexec : Z → PowerSequenceOutcome
}.

(** How a run stands: the function returned, control left for good inside
    a callee, or the run is still inside a [for (;;)] when the fuel ran
    out. *)
Inductive run (A : Type) :=
| Returned (a : A) (w : world)
| Gone (w : world)
| Spinning (w : world).
Arguments Returned {A} a w.
Arguments Gone {A} w.
Arguments Spinning {A} w.

Definition M (A : Type) : Type := world → run A.

#[export] Instance run_ret : MRet M := λ A a w, Returned a w.
#[export] Instance run_bind : MBind M := λ A B k m w,
  match m w with
  | Returned a w' => k a w'
  | Gone w' => Gone w'
  | Spinning w' => Spinning w'
  end.

Definition final {A} (r : run A) : world :=
  match r with
  | Returned _ w | Gone w | Spinning w => w
  end.

Definition emit (e : event) : M unit :=
  λ w, Returned tt (World (irqs_enabled w) (trace w ++ [e])).

(** A call that may not come back. *)
Definition remote (e : event) (o : PowerSequenceOutcome) : M unit :=
  λ w,
    let w' := World (irqs_enabled w) (trace w ++ [e]) in
    match o with
    | Handled => Gone w'
    | FellThrough => Returned tt w'
    end.

(** [for (;;) body;] *)
Fixpoint forever {A} (fuel : nat) (body : M unit) : M A :=
  match fuel with
  | O => λ w, Spinning w
  | S fuel' => body;; forever fuel' body
  end.

(** The remote calls the spec names, in the order of [wii_restart],
    [wii_power_off] and [wii_machine_kexec]. *)
Definition is_remote_call (e : event) : bool :=
  match e with
  | Estarlet_es_reload_ios_and_launch _
  | Estarlet_stm_restart
  | Estarlet_stm_power_off
  | Estarlet_es_reload_ios_and_discard => true
  | _ => false
  end.

Definition remote_calls (t : list event) : list event :=
  List.filter is_remote_call t.

Section Board.
Variable STARLET_TITLE_HBC : Z.   (* asm/starlet.h *)
Variable F : firmware.

(** Modelled from the spec: [local_irq_disable] is a macro of the kernel,
    absent from the sources; the spec has it disable interrupts. *)
Definition local_irq_disable : M unit :=
  λ w, Returned tt (World false (trace w ++ [Elocal_irq_disable])).

(** Modelled from the spec: the calls into the firmware are absent from
    the sources; the spec has them fire-and-forget, with no other
    observable effect in this system than having been attempted and
    either taking the machine over or falling through. *)
Definition starlet_es_reload_ios_and_launch (title : Z) : M unit :=
  remote (Estarlet_es_reload_ios_and_launch title)
         (f_es_reload_ios_and_launch F title).

Definition starlet_stm_restart : M unit :=
  remote Estarlet_stm_restart (f_stm_restart F).

Definition starlet_stm_power_off : M unit :=
  remote Estarlet_stm_power_off (f_stm_power_off F).

Definition starlet_es_reload_ios_and_discard : M unit :=
  remote Estarlet_es_reload_ios_and_discard (f_es_reload_ios_and_discard F).

Definition default_machine_kexec (image : Z) : M unit :=
  remote (Edefault_machine_kexec image) (f_default_machine_kexec F image).

Definition exi_quiesce : M unit := emit Eexi_quiesce.
Definition cpu_relax : M unit := emit Ecpu_relax.

Definition wii_restart (fuel : nat) (cmd : option string) : M unit :=
  local_irq_disable;;
  (* try first to launch The Homebrew Channel... *)
  starlet_es_reload_ios_and_launch STARLET_TITLE_HBC;;
  (* ..and if that fails, try an assisted restart *)
  starlet_stm_restart;;
  (* fallback to spinning until the power button pressed *)
  forever fuel cpu_relax.

Definition wii_power_off (fuel : nat) : M unit :=
  local_irq_disable;;
  (* try an assisted poweroff *)
  starlet_stm_power_off;;
  (* fallback to spinning until the power button pressed *)
  forever fuel cpu_relax.

Definition wii_halt (fuel : nat) : M unit :=
  wii_restart fuel None.

Definition wii_shutdown : M unit :=
  exi_quiesce.

Definition wii_machine_kexec_prepare (image : Z) : M Z :=
  mret 0.

Definition wii_machine_kexec (image : Z) : M unit :=
  local_irq_disable;;
  (* Reload IOS to make sure that I/O resources are freed before
     the final kexec phase. *)
  starlet_es_reload_ios_and_discard;;
  default_machine_kexec image.

End Board.

(** *** Sample inputs *)

(** A firmware none of whose calls takes effect. *)
Definition unresponsive : firmware :=
  {| f_es_reload_ios_and_launch := λ _, FellThrough;
     f_stm_restart := FellThrough;
     f_stm_power_off := FellThrough;
     f_es_reload_ios_and_discard := FellThrough;
     f_default_machine_kexec := λ _, FellThrough |}.

Definition running : world := World true [].

End Wii.

(** ** Properties of drivers/usb/host/ohci-mipc.c *)
Module OhciMipcSpec.
Import OhciMipc.

(** Unfolds a run of the monad down to the collaborators' answers. *)
Ltac run_M :=
  cbv [ohci_mipc_start ohci_hcd_mipc_probe ohci_hcd_mipc_remove
       ohci_init ohci_run ohci_stop err mipc_in_be32 mipc_out_be32
       usb_disabled starlet_get_ipc_flavour dev_dbg printk
       of_address_to_resource usb_create_hcd irq_of_parse_and_map
       ohci_hcd_init usb_add_hcd irq_dispose_mapping usb_put_hcd
       usb_remove_hcd dev_get_drvdata dev_set_drvdata
       out err_irq err_add_hcd deref oops
       emit get_regs put_regs mbind mret M_bind M_ret].

(** *** The shared interrupt-control value *)

Lemma ehci_ctl_bits_value : ehci_ctl_bits = 0xe1800.
Proof. reflexivity. Qed.

Lemma ehci_ctl_enable_lor v : ehci_ctl_enable v = Z.lor v ehci_ctl_bits.
Proof.
  unfold ehci_ctl_enable, ehci_ctl_bits.
  now rewrite <- !Z.lor_assoc.
Qed.

Lemma ehci_ctl_enable_testbit v n :
  Z.testbit (ehci_ctl_enable v) n = Z.testbit v n || Z.testbit ehci_ctl_bits n.
Proof. rewrite ehci_ctl_enable_lor. apply Z.lor_spec. Qed.

Lemma ehci_ctl_enable_idem v :
  ehci_ctl_enable (ehci_ctl_enable v) = ehci_ctl_enable v.
Proof.
  rewrite !ehci_ctl_enable_lor, <- Z.lor_assoc.
  now rewrite Z.lor_diag.
Qed.

(** The OR keeps a 32-bit value in range: the C expression never wraps. *)
Lemma ehci_ctl_enable_range v :
  0 ≤ v < 2 ^ 32 → 0 ≤ ehci_ctl_enable v < 2 ^ 32.
Proof.
  intros [Hlo Hhi]. rewrite ehci_ctl_enable_lor. split.
  - apply Z.lor_nonneg. rewrite ehci_ctl_bits_value. lia.
  - destruct (Z.eq_dec (Z.lor v ehci_ctl_bits) 0) as [->|Hnz]; [lia|].
    assert (Hnn : 0 ≤ Z.lor v ehci_ctl_bits)
      by (apply Z.lor_nonneg; rewrite ehci_ctl_bits_value; lia).
    apply Z.log2_lt_pow2; [lia|].
    rewrite Z.log2_lor by (rewrite ?ehci_ctl_bits_value; lia).
    apply Z.max_lub_lt.
    + destruct (Z.eq_dec v 0) as [->|]; [reflexivity|].
      apply Z.log2_lt_pow2; lia.
    + rewrite ehci_ctl_bits_value. reflexivity.
Qed.

(** *** [ohci_mipc_start], path by path *)

Lemma start_init_fails K hcd w e r1 :
  k_ohci_init K (hcd_to_ohci hcd) (regs w) = (e, r1) → e ≠ 0 →
  ohci_mipc_start K hcd w =
    Some (e, World r1 (trace w ++ [Eohci_init (hcd_to_ohci hcd) e])).
Proof.
  intros Hi He. run_M. rewrite Hi. cbn [regs trace].
  apply Z.eqb_neq in He. now rewrite He.
Qed.

Lemma start_run_fails K hcd w r1 e r3 :
  k_ohci_init K (hcd_to_ohci hcd) (regs w) = (0, r1) →
  k_ohci_run K (hcd_to_ohci hcd)
    (<[HOLLYWOOD_EHCI_CTL := ehci_ctl_enable (r1 HOLLYWOOD_EHCI_CTL)]> r1)
    = (e, r3) →
  e ≠ 0 →
  ohci_mipc_start K hcd w =
    Some (e, World (k_ohci_stop K hcd r3)
               (trace w ++
                [Eohci_init (hcd_to_ohci hcd) 0;
                 Emipc_in_be32 HOLLYWOOD_EHCI_CTL (r1 HOLLYWOOD_EHCI_CTL);
                 Emipc_out_be32 HOLLYWOOD_EHCI_CTL
                   (ehci_ctl_enable (r1 HOLLYWOOD_EHCI_CTL));
                 Eohci_run (hcd_to_ohci hcd) e;
                 Eerr "can't start %s" [self_bus_name hcd];
                 Eohci_stop hcd])).
Proof.
  intros Hi Hr He. run_M. rewrite Hi. cbn [Z.eqb negb regs trace].
  rewrite Hr. apply Z.eqb_neq in He. rewrite He.
  cbn [negb regs trace]. now rewrite <- !app_assoc.
Qed.

Lemma start_succeeds K hcd w r1 r3 :
  k_ohci_init K (hcd_to_ohci hcd) (regs w) = (0, r1) →
  k_ohci_run K (hcd_to_ohci hcd)
    (<[HOLLYWOOD_EHCI_CTL := ehci_ctl_enable (r1 HOLLYWOOD_EHCI_CTL)]> r1)
    = (0, r3) →
  ohci_mipc_start K hcd w =
    Some (0, World r3
               (trace w ++
                [Eohci_init (hcd_to_ohci hcd) 0;
                 Emipc_in_be32 HOLLYWOOD_EHCI_CTL (r1 HOLLYWOOD_EHCI_CTL);
                 Emipc_out_be32 HOLLYWOOD_EHCI_CTL
                   (ehci_ctl_enable (r1 HOLLYWOOD_EHCI_CTL));
                 Eohci_run (hcd_to_ohci hcd) 0])).
Proof.
  intros Hi Hr. run_M. rewrite Hi. cbn [Z.eqb negb regs trace].
  rewrite Hr. cbn [Z.eqb negb regs trace].
  now rewrite <- !app_assoc.
Qed.

Lemma slot_enable_bit_set v s :
  Z.land (ehci_ctl_enable v) (slot_enable_bit s) = slot_enable_bit s.
Proof.
  apply Z.bits_inj'. intros n Hn.
  rewrite Z.land_spec, ehci_ctl_enable_testbit.
  destruct (Z.testbit (slot_enable_bit s) n) eqn:Hb;
    [|apply andb_false_r].
  rewrite andb_true_r.
  assert (Z.testbit ehci_ctl_bits n = true) as ->; [|apply orb_true_r].
  destruct s; cbn [slot_enable_bit] in Hb.
  - destruct (Z.eq_dec n 11) as [->|Hne]; [reflexivity|].
    change HOLLYWOOD_EHCI_CTL_OH0INTE with (2 ^ 11) in Hb.
    rewrite Z.pow2_bits_false in Hb by lia. discriminate.
  - destruct (Z.eq_dec n 12) as [->|Hne]; [reflexivity|].
    change HOLLYWOOD_EHCI_CTL_OH1INTE with (2 ^ 12) in Hb.
    rewrite Z.pow2_bits_false in Hb by lia. discriminate.
Qed.

(** Whatever the engine answers, a start whose [ohci_init] succeeded
    reads the register once and writes it once. *)
Lemma start_after_init K hcd w r1 :
  k_ohci_init K (hcd_to_ohci hcd) (regs w) = (0, r1) →
  ∃ e w' post,
    ohci_mipc_start K hcd w = Some (e, w') ∧
    trace w' = trace w ++
      [Eohci_init (hcd_to_ohci hcd) 0;
       Emipc_in_be32 HOLLYWOOD_EHCI_CTL (r1 HOLLYWOOD_EHCI_CTL);
       Emipc_out_be32 HOLLYWOOD_EHCI_CTL
         (ehci_ctl_enable (r1 HOLLYWOOD_EHCI_CTL))] ++ post ∧
    writes post = [].
Proof.
  intros Hi.
  destruct (k_ohci_run K (hcd_to_ohci hcd)
              (<[HOLLYWOOD_EHCI_CTL :=
                  ehci_ctl_enable (r1 HOLLYWOOD_EHCI_CTL)]> r1))
    as [e r3] eqn:Hr.
  destruct (Z.eq_dec e 0) as [->|He].
  - eexists _, _, _. split; [apply (start_succeeds _ _ _ _ _ Hi Hr)|].
    split; reflexivity.
  - eexists _, _, _. split; [apply (start_run_fails _ _ _ _ _ _ Hi Hr He)|].
    split; reflexivity.
Qed.

(** C10: the shared interrupt-enable write is monotone.  Whatever value
    [v] the sequence reads from the register, the one value
    [ohci_mipc_start] writes back is [v] ORed with the constant
    [0xe0000 | OH0INTE | OH1INTE]: every bit set in [v] stays set and no
    bit outside the constant changes. *)
Theorem enable_write_monotone K hcd w r1 :
  k_ohci_init K (hcd_to_ohci hcd) (regs w) = (0, r1) →
  ∃ e w' t x,
    ohci_mipc_start K hcd w = Some (e, w') ∧
    trace w' = trace w ++ t ∧
    writes t = [(HOLLYWOOD_EHCI_CTL, x)] ∧
    x = Z.lor (r1 HOLLYWOOD_EHCI_CTL)
          (Z.lor (Z.lor 0xe0000 HOLLYWOOD_EHCI_CTL_OH0INTE)
                 HOLLYWOOD_EHCI_CTL_OH1INTE) ∧
    (∀ n, Z.testbit (r1 HOLLYWOOD_EHCI_CTL) n = true → Z.testbit x n = true) ∧
    (∀ n, Z.testbit ehci_ctl_bits n = false →
          Z.testbit x n = Z.testbit (r1 HOLLYWOOD_EHCI_CTL) n).
Proof.
  intros Hi.
  destruct (start_after_init K hcd w r1 Hi) as (e & w' & post & Hs & Ht & Hw).
  eexists e, w', _, (ehci_ctl_enable (r1 HOLLYWOOD_EHCI_CTL)).
  split; [exact Hs|]. split; [exact Ht|]. split.
  - unfold writes in *. rewrite omap_app, Hw. reflexivity.
  - split; [apply ehci_ctl_enable_lor|]. split; intros n Hn.
    + rewrite ehci_ctl_enable_testbit, Hn. reflexivity.
    + rewrite ehci_ctl_enable_testbit, Hn. apply orb_false_r.
Qed.

Lemma enable_write_monotone_witness :
  ∃ e w' t x,
    ohci_mipc_start all_fine sample_hcd sample_world = Some (e, w') ∧
    trace w' = trace sample_world ++ t ∧
    writes t = [(HOLLYWOOD_EHCI_CTL, x)] ∧
    x = Z.lor 0 (Z.lor (Z.lor 0xe0000 HOLLYWOOD_EHCI_CTL_OH0INTE)
                       HOLLYWOOD_EHCI_CTL_OH1INTE) ∧
    (∀ n, Z.testbit 0 n = true → Z.testbit x n = true) ∧
    (∀ n, Z.testbit ehci_ctl_bits n = false → Z.testbit x n = Z.testbit 0 n).
Proof.
  exact (enable_write_monotone all_fine sample_hcd sample_world (λ _, 0)
           eq_refl).
Defined.

(** C4, as amended: the shared interrupt-enable sequence reads the
    register, ORs in the fixed mask [0xe0000] and the enable bits of both
    slots, whichever controller is being started, and writes the result
    back. *)
Theorem enable_sets_both_slots K hcd w r1 :
  k_ohci_init K (hcd_to_ohci hcd) (regs w) = (0, r1) →
  ∃ e w' post v x,
    ohci_mipc_start K hcd w = Some (e, w') ∧
    trace w' = trace w ++
      [Eohci_init (hcd_to_ohci hcd) 0;
       Emipc_in_be32 HOLLYWOOD_EHCI_CTL v;
       Emipc_out_be32 HOLLYWOOD_EHCI_CTL x] ++ post ∧
    v = r1 HOLLYWOOD_EHCI_CTL ∧
    x = Z.lor (Z.lor (Z.lor v 0xe0000) (slot_enable_bit Slot0))
              (slot_enable_bit Slot1) ∧
    (∀ s, Z.land x (slot_enable_bit s) = slot_enable_bit s) ∧
    writes post = [].
Proof.
  intros Hi.
  destruct (start_after_init K hcd w r1 Hi) as (e & w' & post & Hs & Ht & Hw).
  exists e, w', post, (r1 HOLLYWOOD_EHCI_CTL),
    (ehci_ctl_enable (r1 HOLLYWOOD_EHCI_CTL)).
  repeat split; try assumption.
  intros s. apply slot_enable_bit_set.
Qed.

Lemma enable_sets_both_slots_witness :
  ∃ e w' post v x,
    ohci_mipc_start all_fine sample_hcd sample_world = Some (e, w') ∧
    trace w' = trace sample_world ++
      [Eohci_init (hcd_to_ohci sample_hcd) 0;
       Emipc_in_be32 HOLLYWOOD_EHCI_CTL v;
       Emipc_out_be32 HOLLYWOOD_EHCI_CTL x] ++ post ∧
    v = 0 ∧
    x = Z.lor (Z.lor (Z.lor v 0xe0000) (slot_enable_bit Slot0))
              (slot_enable_bit Slot1) ∧
    (∀ s, Z.land x (slot_enable_bit s) = slot_enable_bit s) ∧
    writes post = [].
Proof.
  exact (enable_sets_both_slots all_fine sample_hcd sample_world (λ _, 0)
           eq_refl).
Defined.

(** C4 as the spec words it fails: started on a register holding 0, the
    sequence writes [0xe1800], which is neither [0xe0000 | OH0INTE] nor
    [0xe0000 | OH1INTE]; whichever slot the controller sits in, the other
    slot's enable bit is written too. *)
Lemma start_enables_other_slot :
  ¬ writes_own_slot_only all_fine sample_hcd sample_world Slot0 ∧
  ¬ writes_own_slot_only all_fine sample_hcd sample_world Slot1.
Proof.
  split; intros Hc;
    specialize (Hc 0 _ eq_refl); vm_compute in Hc; discriminate Hc.
Qed.

(** C6: when [ohci_init] has succeeded and [ohci_run] fails with code
    [e], [ohci_mipc_start] calls the engine's [ohci_stop] on the
    controller, logs exactly one diagnostic, which names the
    controller's bus name, and returns [e]. *)
Theorem start_failure_reports K hcd w r1 e r3 :
  k_ohci_init K (hcd_to_ohci hcd) (regs w) = (0, r1) →
  k_ohci_run K (hcd_to_ohci hcd)
    (<[HOLLYWOOD_EHCI_CTL := ehci_ctl_enable (r1 HOLLYWOOD_EHCI_CTL)]> r1)
    = (e, r3) →
  e ≠ 0 →
  ∃ w' t,
    ohci_mipc_start K hcd w = Some (e, w') ∧
    trace w' = trace w ++ t ∧
    stops t = [hcd] ∧
    diagnostics t = [Eerr "can't start %s" [self_bus_name hcd]].
Proof.
  intros Hi Hr He. eexists _, _.
  split; [apply (start_run_fails _ _ _ _ _ _ Hi Hr He)|].
  repeat split.
Qed.

Lemma start_failure_reports_witness :
  ∃ w' t,
    ohci_mipc_start run_fails sample_hcd sample_world = Some (5, w') ∧
    trace w' = trace sample_world ++ t ∧
    stops t = [sample_hcd] ∧
    diagnostics t = [Eerr "can't start %s" ["usb1"%string]].
Proof.
  refine (start_failure_reports run_fails sample_hcd sample_world
            (λ _, 0) 5 _ eq_refl eq_refl _).
  lia.
Defined.

(** C3, as amended: when [ohci_init] succeeds and [ohci_run] fails,
    [ohci_mipc_start] stops the engine and writes the shared register no
    second time; where the engine's own [ohci_run] and [ohci_stop] leave
    that register alone, it still holds the value of the enable sequence
    when the start returns, with the enable bits of both slots set. *)
Theorem start_failure_keeps_enable_bits K hcd w r1 e r3 :
  k_ohci_init K (hcd_to_ohci hcd) (regs w) = (0, r1) →
  k_ohci_run K (hcd_to_ohci hcd)
    (<[HOLLYWOOD_EHCI_CTL := ehci_ctl_enable (r1 HOLLYWOOD_EHCI_CTL)]> r1)
    = (e, r3) →
  e ≠ 0 →
  r3 HOLLYWOOD_EHCI_CTL = ehci_ctl_enable (r1 HOLLYWOOD_EHCI_CTL) →
  k_ohci_stop K hcd r3 HOLLYWOOD_EHCI_CTL = r3 HOLLYWOOD_EHCI_CTL →
  ∃ w' t,
    ohci_mipc_start K hcd w = Some (e, w') ∧
    trace w' = trace w ++ t ∧
    stops t = [hcd] ∧
    writes t =
      [(HOLLYWOOD_EHCI_CTL, ehci_ctl_enable (r1 HOLLYWOOD_EHCI_CTL))] ∧
    regs w' HOLLYWOOD_EHCI_CTL = ehci_ctl_enable (r1 HOLLYWOOD_EHCI_CTL) ∧
    ∀ s, Z.land (regs w' HOLLYWOOD_EHCI_CTL) (slot_enable_bit s)
         = slot_enable_bit s.
Proof.
  intros Hi Hr He Hrun Hstop. eexists _, _.
  split; [apply (start_run_fails _ _ _ _ _ _ Hi Hr He)|].
  cbn [regs trace]. rewrite Hstop, Hrun.
  repeat split. intros s. apply slot_enable_bit_set.
Qed.

Lemma start_failure_keeps_enable_bits_witness :
  ∃ w' t,
    ohci_mipc_start run_fails sample_hcd sample_world = Some (5, w') ∧
    trace w' = trace sample_world ++ t ∧
    stops t = [sample_hcd] ∧
    writes t = [(HOLLYWOOD_EHCI_CTL, ehci_ctl_enable 0)] ∧
    regs w' HOLLYWOOD_EHCI_CTL = ehci_ctl_enable 0 ∧
    ∀ s, Z.land (regs w' HOLLYWOOD_EHCI_CTL) (slot_enable_bit s)
         = slot_enable_bit s.
Proof.
  refine (start_failure_keeps_enable_bits run_fails sample_hcd sample_world
            (λ _, 0) 5 _ eq_refl eq_refl _ eq_refl eq_refl).
  lia.
Defined.

(** C3 as the spec words it fails: with an engine whose [ohci_init]
    succeeds and whose [ohci_run] fails with code 5, the enable bit of
    neither slot is clear when the start has returned. *)
Lemma enable_bits_survive_failed_start :
  ¬ enable_bit_cleared_on_failure run_fails sample_hcd sample_world Slot0 ∧
  ¬ enable_bit_cleared_on_failure run_fails sample_hcd sample_world Slot1.
Proof.
  split; intros Hc;
    specialize (Hc eq_refl 5 _ eq_refl ltac:(lia)); vm_compute in Hc;
    discriminate Hc.
Qed.

(** *** Two starts interleaved *)

Lemma sys_init_inv w : rmw_inv (regs w) (sys_init w).
Proof. repeat split; auto. Qed.

Lemma sys_step_inv r0 s σ : rmw_inv r0 σ → rmw_inv r0 (sys_step s σ).
Proof.
  intros (Hreg & H0 & H1 & Hfar).
  unfold sys_step.
  destruct s; cbn [thr].
  - destruct (thr0 σ) as [|x|] eqn:Ht0; cbn [rmw_ok] in H0.
    + run_M. cbn [set_thr]. unfold rmw_inv. cbn [shared thr0 thr1 regs].
      split; [exact Hreg|]. split; [exact Hreg|].
      split; [|exact Hfar].
      destruct (thr1 σ); cbn [rmw_ok] in *; auto.
    + run_M. cbn [set_thr]. unfold rmw_inv. cbn [shared thr0 thr1 regs rmw_ok].
      rewrite fn_lookup_insert.
      assert (Hx : ehci_ctl_enable x
                   = ehci_ctl_enable (r0 HOLLYWOOD_EHCI_CTL))
        by (destruct H0 as [->| ->]; [|rewrite ehci_ctl_enable_idem];
            reflexivity).
      split; [right; exact Hx|]. split; [exact Hx|]. split.
      * destruct (thr1 σ); cbn [rmw_ok] in *; auto.
      * intros a Ha. rewrite fn_lookup_insert_ne by congruence. auto.
    + unfold rmw_inv. rewrite Ht0. cbn [rmw_ok]. auto.
  - destruct (thr1 σ) as [|x|] eqn:Ht1; cbn [rmw_ok] in H1.
    + run_M. cbn [set_thr]. unfold rmw_inv. cbn [shared thr0 thr1 regs].
      split; [exact Hreg|]. split; [|split; [exact Hreg|exact Hfar]].
      destruct (thr0 σ); cbn [rmw_ok] in *; auto.
    + run_M. cbn [set_thr]. unfold rmw_inv. cbn [shared thr0 thr1 regs rmw_ok].
      rewrite fn_lookup_insert.
      assert (Hx : ehci_ctl_enable x
                   = ehci_ctl_enable (r0 HOLLYWOOD_EHCI_CTL))
        by (destruct H1 as [->| ->]; [|rewrite ehci_ctl_enable_idem];
            reflexivity).
      split; [right; exact Hx|]. split; [|split; [exact Hx|]].
      * destruct (thr0 σ); cbn [rmw_ok] in *; auto.
      * intros a Ha. rewrite fn_lookup_insert_ne by congruence. auto.
    + unfold rmw_inv. rewrite Ht1. cbn [rmw_ok]. auto.
Qed.

Lemma sys_run_inv r0 sched : ∀ σ, rmw_inv r0 σ → rmw_inv r0 (sys_run sched σ).
Proof.
  unfold sys_run.
  induction sched as [|s sched IH]; intros σ Hinv; cbn [fold_left].
  - exact Hinv.
  - apply IH, sys_step_inv, Hinv.
Qed.

(** One slot running alone performs the read and the write of
    [ohci_mipc_start] back to back. *)
Lemma solo_rmw s w :
  shared (sys_run [s; s] (sys_init w)) =
    World (<[HOLLYWOOD_EHCI_CTL :=
              ehci_ctl_enable (regs w HOLLYWOOD_EHCI_CTL)]> (regs w))
          (trace w ++
           [Emipc_in_be32 HOLLYWOOD_EHCI_CTL (regs w HOLLYWOOD_EHCI_CTL);
            Emipc_out_be32 HOLLYWOOD_EHCI_CTL
              (ehci_ctl_enable (regs w HOLLYWOOD_EHCI_CTL))]).
Proof.
  destruct s;
    cbv [sys_run sys_init fold_left sys_step thr thr0 thr1 set_thr shared];
    run_M; cbn [regs trace shared thr0 thr1];
    now rewrite <- app_assoc.
Qed.

(** C8, as amended: the file takes no lock around the read-modify-write
    of the shared register; all the same, however the register accesses
    of the two slots' starts interleave, once both have written the
    register holds its old value ORed with [0xe1800]: both slots' enable
    bits are set, no update is lost, no bit outside the constant has
    changed and no other register has been written. *)
Theorem interleaved_starts_enable_both w sched :
  both_finished (sys_run sched (sys_init w)) = true →
  let σ := sys_run sched (sys_init w) in
  let v := regs w HOLLYWOOD_EHCI_CTL in
  let v' := regs (shared σ) HOLLYWOOD_EHCI_CTL in
  v' = Z.lor v ehci_ctl_bits ∧
  (∀ s, Z.land v' (slot_enable_bit s) = slot_enable_bit s) ∧
  (∀ n, Z.testbit v n = true → Z.testbit v' n = true) ∧
  (∀ n, Z.testbit ehci_ctl_bits n = false → Z.testbit v' n = Z.testbit v n) ∧
  (∀ a, a ≠ HOLLYWOOD_EHCI_CTL → regs (shared σ) a = regs w a).
Proof.
  intros Hfin σ v v'.
  destruct (sys_run_inv (regs w) sched _ (sys_init_inv w))
    as (_ & H0 & _ & Hfar).
  fold σ in H0, Hfar, Hfin.
  assert (Hv' : v' = ehci_ctl_enable v).
  { unfold both_finished in Hfin.
    destruct (thr0 σ); try discriminate. exact H0. }
  rewrite Hv'. split; [apply ehci_ctl_enable_lor|].
  split; [intros s; apply slot_enable_bit_set|].
  split; [|split; [|exact Hfar]]; intros n Hn;
    rewrite ehci_ctl_enable_testbit, Hn; [reflexivity|apply orb_false_r].
Qed.

Lemma interleaved_starts_enable_both_witness :
  let σ := sys_run [Slot0; Slot1; Slot0; Slot1] (sys_init sample_world) in
  let v := regs sample_world HOLLYWOOD_EHCI_CTL in
  let v' := regs (shared σ) HOLLYWOOD_EHCI_CTL in
  v' = Z.lor v ehci_ctl_bits ∧
  (∀ s, Z.land v' (slot_enable_bit s) = slot_enable_bit s) ∧
  (∀ n, Z.testbit v n = true → Z.testbit v' n = true) ∧
  (∀ n, Z.testbit ehci_ctl_bits n = false → Z.testbit v' n = Z.testbit v n) ∧
  (∀ a, a ≠ HOLLYWOOD_EHCI_CTL → regs (shared σ) a = regs sample_world a).
Proof.
  exact (interleaved_starts_enable_both sample_world
           [Slot0; Slot1; Slot0; Slot1] eq_refl).
Defined.

(** C8 as the spec words it fails: nothing keeps the two
    read-modify-write sequences apart.  After slot 0 and then slot 1 have
    each made one register access, both have read and neither has
    written. *)
Lemma starts_not_mutually_exclusive : ¬ mutually_exclusive sample_world.
Proof.
  intros Hc. specialize (Hc [Slot0; Slot1]). vm_compute in Hc.
  discriminate Hc.
Qed.

(** *** The probe *)

(** Closes a goal on a run once the collaborators' answers are known:
    gathers the events appended to the trace. *)
Ltac new_trace :=
  eexists _, _; split;
    [cbn [regs trace]; rewrite <- ?app_assoc; cbn [app]; reflexivity|].

(** Settles the three parts of a failed run: the result is not 0, and the
    events give back what they took. *)
Ltac failed_run :=
  split; [split; [intros; lia|discriminate]|];
  split; [|intros; lia]; intros _;
  unfold released, acquired; cbn;
  repeat match goal with
         | Hq : (_ =? _) = _ |- _ => rewrite Hq
         end;
  cbn; rewrite ?decide_True by reflexivity;
  split; reflexivity.

(** C1: every failure of the probe is rolled back before it is reported.
    [ohci_hcd_mipc_probe] returns 0 exactly when every step has succeeded
    (it then holds the handle, the interrupt mapping and the bus
    registration, in this order of acquisition); when it returns an
    error it has given back, most recent first, exactly what
    [usb_create_hcd] and [irq_of_parse_and_map] had acquired before the
    failing step. *)
Theorem probe_rolls_back `{kernel_headers} (K : kernel) op w :
  ENODEV ≠ 0 → ENOMEM ≠ 0 → EBUSY ≠ 0 →
  ∃ r t,
    ohci_hcd_mipc_probe K op w = Some (r, World (regs w) (trace w ++ t)) ∧
    (r = 0 ↔ all_steps_succeed K op = true) ∧
    (r ≠ 0 → settle [] t = Some [] ∧ released t = rev (acquired t)) ∧
    (r = 0 → released t = [] ∧
             ∃ a irq, acquired t = [THcd a; TIrq irq; TBus a] ∧
                      settle [] t = Some [TBus a; TIrq irq; THcd a]).
Proof.
  intros Hnodev Hnomem Hbusy.
  unfold all_steps_succeed. run_M.
  destruct (k_usb_disabled K =? 0) eqn:Hd; cbn [negb andb].
  2:{ new_trace. failed_run. }
  destruct (k_starlet_get_ipc_flavour K =? STARLET_IPC_MINI) eqn:Hf;
    cbn [negb andb].
  2:{ new_trace. failed_run. }
  destruct (k_of_address_to_resource K (node op) 0) as [error res] eqn:Hres.
  cbn [fst snd regs trace].
  destruct (error =? 0) eqn:He; cbn [negb andb].
  2:{ new_trace. pose proof (proj1 (Z.eqb_neq _ _) He). failed_run. }
  destruct (k_usb_create_hcd K (dev op) DRV_MODULE_NAME) as [hcd|] eqn:Hc.
  2:{ new_trace. failed_run. }
  cbn [regs trace].
  destruct (k_irq_of_parse_and_map K (node op) 0 =? NO_IRQ) eqn:Hirq;
    cbn [negb andb].
  { new_trace. failed_run. }
  fold (bound_hcd res hcd).
  destruct (k_usb_add_hcd K (bound_hcd res hcd)
              (k_irq_of_parse_and_map K (node op) 0) IRQF_DISABLED =? 0)
    eqn:Hadd; cbn [negb].
  2:{ new_trace. pose proof (proj1 (Z.eqb_neq _ _) Hadd). failed_run. }
  new_trace. apply Z.eqb_eq in Hadd.
  split; [tauto|]. split; [intros []; reflexivity|]. intros _.
  unfold released, acquired. cbn. rewrite Hirq, Hadd. cbn.
  split; [reflexivity|]. eexists _, _. split; reflexivity.
Qed.

Lemma probe_rolls_back_witness :
  ∃ r t,
    ohci_hcd_mipc_probe (H := linux_headers) run_fails sample_op sample_world
      = Some (r, World (regs sample_world) (trace sample_world ++ t)) ∧
    (r = 0 ↔ all_steps_succeed (H := linux_headers) run_fails sample_op
             = true) ∧
    (r ≠ 0 → settle (H := linux_headers) [] t = Some [] ∧
             released t = rev (acquired (H := linux_headers) t)) ∧
    (r = 0 → released t = [] ∧
             ∃ a irq, acquired (H := linux_headers) t
                      = [THcd a; TIrq irq; TBus a] ∧
                      settle (H := linux_headers) [] t
                      = Some [TBus a; TIrq irq; THcd a]).
Proof.
  apply (probe_rolls_back (H := linux_headers) run_fails sample_op
           sample_world); cbn; lia.
Defined.

(** A run of the probe in which every step succeeds. *)
Lemma probe_succeeds `{kernel_headers} (K : kernel) op w res hcd :
  k_usb_disabled K = 0 →
  k_starlet_get_ipc_flavour K = STARLET_IPC_MINI →
  k_of_address_to_resource K (node op) 0 = (0, res) →
  k_usb_create_hcd K (dev op) DRV_MODULE_NAME = Some hcd →
  k_irq_of_parse_and_map K (node op) 0 ≠ NO_IRQ →
  k_usb_add_hcd K (bound_hcd res hcd)
    (k_irq_of_parse_and_map K (node op) 0) IRQF_DISABLED = 0 →
  ohci_hcd_mipc_probe K op w =
    Some (0, World (regs w)
               (trace w ++
                [Eusb_disabled 0;
                 Estarlet_get_ipc_flavour STARLET_IPC_MINI;
                 Edev_dbg (dev op)
                   ("initializing " +:+ DRV_MODULE_NAME +:+
                    " USB Controller" +:+ nl);
                 Eof_address_to_resource (node op) 0 0 res;
                 Eusb_create_hcd (dev op) DRV_MODULE_NAME (Some hcd);
                 Eirq_of_parse_and_map (node op) 0
                   (k_irq_of_parse_and_map K (node op) 0);
                 Eohci_hcd_init (hcd_to_ohci (bound_hcd res hcd));
                 Eusb_add_hcd (bound_hcd res hcd)
                   (k_irq_of_parse_and_map K (node op) 0) IRQF_DISABLED 0])).
Proof.
  intros Hd Hf Hres Hc Hirq Hadd. run_M.
  rewrite Hd, Hf, !Z.eqb_refl, Hres. cbn [Z.eqb negb fst snd regs trace].
  rewrite Hc. cbn [regs trace].
  apply Z.eqb_neq in Hirq. rewrite Hirq.
  fold (bound_hcd res hcd). rewrite Hadd. cbn [Z.eqb negb regs trace].
  now rewrite <- !app_assoc.
Qed.

(** C2, as amended: the interrupt line is looked up after the register
    window has resolved and after the handle has been allocated; for a
    node whose register window resolves and whose handle is allocated
    but whose interrupt line does not map, the probe logs the failure,
    gives the handle back with [usb_put_hcd] and returns [-EBUSY], having
    made no interrupt mapping and no bus registration. *)
Theorem irq_failure_releases_handle `{kernel_headers} (K : kernel) op w
    res hcd :
  k_usb_disabled K = 0 →
  k_starlet_get_ipc_flavour K = STARLET_IPC_MINI →
  k_of_address_to_resource K (node op) 0 = (0, res) →
  k_usb_create_hcd K (dev op) DRV_MODULE_NAME = Some hcd →
  k_irq_of_parse_and_map K (node op) 0 = NO_IRQ →
  ∃ pre hcd',
    let t := pre ++
      [Eof_address_to_resource (node op) 0 0 res;
       Eusb_create_hcd (dev op) DRV_MODULE_NAME (Some hcd);
       Eirq_of_parse_and_map (node op) 0 NO_IRQ;
       Eprintk KERN_ERR (FILE__ +:+ ": irq_of_parse_and_map failed" +:+ nl);
       Eusb_put_hcd hcd'] in
    ohci_hcd_mipc_probe K op w
      = Some (- EBUSY, World (regs w) (trace w ++ t)) ∧
    hcd_addr hcd' = hcd_addr hcd ∧
    acquired t = [THcd (hcd_addr hcd)] ∧
    released t = [THcd (hcd_addr hcd)] ∧
    settle [] t = Some [].
Proof.
  intros Hd Hf Hres Hc Hirq.
  exists [Eusb_disabled 0;
          Estarlet_get_ipc_flavour STARLET_IPC_MINI;
          Edev_dbg (dev op)
            ("initializing " +:+ DRV_MODULE_NAME +:+
             " USB Controller" +:+ nl)].
  eexists. cbn zeta. split.
  - run_M.
    rewrite Hd, Hf, !Z.eqb_refl, Hres. cbn [Z.eqb negb fst snd regs trace].
    rewrite Hc. cbn [regs trace]. rewrite Hirq, Z.eqb_refl.
    cbn [regs trace]. rewrite <- !app_assoc. cbn [app]. reflexivity.
  - unfold acquired, released. cbn. rewrite Z.eqb_refl.
    rewrite decide_True by reflexivity. repeat split.
Qed.

Lemma irq_failure_releases_handle_witness :
  ∃ pre hcd',
    let t := pre ++
      [Eof_address_to_resource 7 0 0 (Resource 0x0d060000 0x0d0601ff);
       Eusb_create_hcd 9 DRV_MODULE_NAME (Some sample_hcd);
       Eirq_of_parse_and_map 7 0 0;
       Eprintk KERN_ERR (FILE__ +:+ ": irq_of_parse_and_map failed" +:+ nl);
       Eusb_put_hcd hcd'] in
    ohci_hcd_mipc_probe (H := linux_headers) no_irq sample_op sample_world
      = Some (- 16, World (regs sample_world) (trace sample_world ++ t)) ∧
    hcd_addr hcd' = 0x1000 ∧
    acquired (H := linux_headers) t = [THcd 0x1000] ∧
    released t = [THcd 0x1000] ∧
    settle (H := linux_headers) [] t = Some [].
Proof.
  exact (irq_failure_releases_handle (H := linux_headers) no_irq sample_op
           sample_world _ _ eq_refl eq_refl eq_refl eq_refl eq_refl).
Defined.

(** C2 as the spec words it fails: with a register window that resolves
    and an interrupt line that does not map, the probe does not get to
    the interrupt-line error with nothing allocated: it has called
    [usb_create_hcd] first. *)
Lemma irq_failure_after_allocation :
  ¬ irq_failure_allocates_nothing (H := linux_headers) no_irq sample_op
      sample_world.
Proof.
  intros Hc. destruct (Hc eq_refl eq_refl) as (t & Hrun & Hacq).
  vm_compute in Hrun. injection Hrun as <-.
  vm_compute in Hacq. discriminate Hacq.
Qed.

(** *** The remove path *)

Lemma settle_app `{kernel_headers} t1 : ∀ held t2,
  settle held (t1 ++ t2) = settle held t1 ≫= λ held', settle held' t2.
Proof.
  induction t1 as [|e t1 IH]; intros held t2; cbn [app settle].
  - reflexivity.
  - destruct (acquires e); [apply IH|].
    destruct (releases e) as [r|]; [|apply IH].
    destruct held as [|h held]; [reflexivity|].
    destruct (decide (h = r)); [apply IH|reflexivity].
Qed.

(** The remove path on a handle. *)
Lemma remove_run (K : kernel) op w hcd :
  k_dev_get_drvdata K (dev op) = Some hcd →
  ohci_hcd_mipc_remove K op w =
    Some (0, World (regs w)
               (trace w ++
                [Edev_get_drvdata (dev op) (Some hcd);
                 Edev_set_drvdata (dev op) None;
                 Edev_dbg (dev op)
                   ("stopping " +:+ DRV_MODULE_NAME +:+
                    " USB Controller" +:+ nl);
                 Eusb_remove_hcd hcd;
                 Eirq_dispose_mapping (hcd_irq hcd);
                 Eusb_put_hcd hcd])).
Proof.
  intros Hdata. run_M. rewrite Hdata. cbn [regs trace].
  now rewrite <- !app_assoc.
Qed.

Lemma remove_settles `{kernel_headers} dev msg hcd held :
  settle ([TBus (hcd_addr hcd); TIrq (hcd_irq hcd); THcd (hcd_addr hcd)]
          ++ held)
    [Edev_get_drvdata dev (Some hcd);
     Edev_set_drvdata dev None;
     Edev_dbg dev msg;
     Eusb_remove_hcd hcd;
     Eirq_dispose_mapping (hcd_irq hcd);
     Eusb_put_hcd hcd] = Some held.
Proof. cbn. now rewrite !decide_True by reflexivity. Qed.

(** C5: [ohci_hcd_mipc_remove] is the mirror of the probe's acquisitions.
    For every handle found in the device's driver data, once it has
    cleared the driver data and logged a debug message it unregisters the
    controller from the bus ([usb_remove_hcd]), then disposes of the
    mapping of the handle's interrupt ([irq_dispose_mapping]), then gives
    the handle back ([usb_put_hcd]), and returns 0.  These three releases
    are the only ones, nothing is acquired, and they undo most recent
    first what a successful probe holds. *)
Theorem remove_mirrors_probe `{kernel_headers} (K : kernel) op w hcd :
  k_dev_get_drvdata K (dev op) = Some hcd →
  ∃ t,
    ohci_hcd_mipc_remove K op w
      = Some (0, World (regs w) (trace w ++ t)) ∧
    t = [Edev_get_drvdata (dev op) (Some hcd);
         Edev_set_drvdata (dev op) None;
         Edev_dbg (dev op)
           ("stopping " +:+ DRV_MODULE_NAME +:+ " USB Controller" +:+ nl);
         Eusb_remove_hcd hcd;
         Eirq_dispose_mapping (hcd_irq hcd);
         Eusb_put_hcd hcd] ∧
    released t =
      [TBus (hcd_addr hcd); TIrq (hcd_irq hcd); THcd (hcd_addr hcd)] ∧
    released t =
      rev [THcd (hcd_addr hcd); TIrq (hcd_irq hcd); TBus (hcd_addr hcd)] ∧
    acquired t = [] ∧
    ∀ held,
      settle ([TBus (hcd_addr hcd); TIrq (hcd_irq hcd); THcd (hcd_addr hcd)]
              ++ held) t = Some held.
Proof.
  intros Hdata. eexists. split; [apply (remove_run K op w hcd Hdata)|].
  split; [reflexivity|]. repeat split.
  intros held. apply remove_settles.
Qed.

Lemma remove_mirrors_probe_witness :
  ∃ t,
    ohci_hcd_mipc_remove all_fine sample_op sample_world
      = Some (0, World (regs sample_world) (trace sample_world ++ t)) ∧
    t = [Edev_get_drvdata 9 (Some sample_hcd);
         Edev_set_drvdata 9 None;
         Edev_dbg 9
           ("stopping " +:+ DRV_MODULE_NAME +:+ " USB Controller" +:+ nl);
         Eusb_remove_hcd sample_hcd;
         Eirq_dispose_mapping 0;
         Eusb_put_hcd sample_hcd] ∧
    released t = [TBus 0x1000; TIrq 0; THcd 0x1000] ∧
    released t = rev [THcd 0x1000; TIrq 0; TBus 0x1000] ∧
    acquired (H := linux_headers) t = [] ∧
    ∀ held,
      settle (H := linux_headers)
        ([TBus 0x1000; TIrq 0; THcd 0x1000] ++ held) t = Some held.
Proof.
  exact (remove_mirrors_probe (H := linux_headers) all_fine sample_op
           sample_world sample_hcd eq_refl).
Defined.


(** A successful probe followed by the removal of the handle it has
    registered leaves nothing held. *)
Lemma probe_then_remove_balanced `{kernel_headers} (K K' : kernel) op w
    res hcd hcd' w1 :
  k_usb_disabled K = 0 →
  k_starlet_get_ipc_flavour K = STARLET_IPC_MINI →
  k_of_address_to_resource K (node op) 0 = (0, res) →
  k_usb_create_hcd K (dev op) DRV_MODULE_NAME = Some hcd →
  k_irq_of_parse_and_map K (node op) 0 ≠ NO_IRQ →
  k_usb_add_hcd K (bound_hcd res hcd)
    (k_irq_of_parse_and_map K (node op) 0) IRQF_DISABLED = 0 →
  k_dev_get_drvdata K' (dev op) = Some hcd' →
  hcd_addr hcd' = hcd_addr hcd →
  hcd_irq hcd' = k_irq_of_parse_and_map K (node op) 0 →
  ohci_hcd_mipc_probe K op w = Some (0, w1) →
  ∃ t,
    ohci_hcd_mipc_remove K' op w1
      = Some (0, World (regs w) (trace w ++ t)) ∧
    settle [] t = Some [].
Proof.
  intros Hd Hf Hres Hc Hirq Hadd Hdata Haddr Hhirq Hprobe.
  rewrite (probe_succeeds K op w res hcd Hd Hf Hres Hc Hirq Hadd) in Hprobe.
  injection Hprobe as <-.
  rewrite (remove_run K' op _ hcd' Hdata). cbn [regs trace].
  eexists. split; [now rewrite <- app_assoc|].
  rewrite settle_app. cbn [settle acquires releases].
  apply Z.eqb_neq in Hirq. rewrite Hirq, Z.eqb_refl. cbn [mbind option_bind].
  change (hcd_addr (bound_hcd res hcd)) with (hcd_addr hcd).
  rewrite <- Haddr, <- Hhirq. now rewrite !decide_True by reflexivity.
Qed.

(** *** The probe, failure by failure *)

Lemma probe_disabled `{kernel_headers} (K : kernel) op w :
  k_usb_disabled K ≠ 0 →
  ohci_hcd_mipc_probe K op w =
    Some (- ENODEV,
          World (regs w) (trace w ++ [Eusb_disabled (k_usb_disabled K)])).
Proof.
  intros Hd. run_M. apply Z.eqb_neq in Hd. now rewrite Hd.
Qed.

Lemma probe_wrong_flavour `{kernel_headers} (K : kernel) op w :
  k_usb_disabled K = 0 →
  k_starlet_get_ipc_flavour K ≠ STARLET_IPC_MINI →
  ohci_hcd_mipc_probe K op w =
    Some (- ENODEV,
          World (regs w)
            (trace w ++
             [Eusb_disabled 0;
              Estarlet_get_ipc_flavour (k_starlet_get_ipc_flavour K)])).
Proof.
  intros Hd Hf. run_M. rewrite Hd. cbn [Z.eqb negb regs trace].
  apply Z.eqb_neq in Hf. rewrite Hf. cbn [negb].
  now rewrite <- !app_assoc.
Qed.

Lemma probe_no_window `{kernel_headers} (K : kernel) op w e res :
  k_usb_disabled K = 0 →
  k_starlet_get_ipc_flavour K = STARLET_IPC_MINI →
  k_of_address_to_resource K (node op) 0 = (e, res) →
  e ≠ 0 →
  ohci_hcd_mipc_probe K op w =
    Some (e,
          World (regs w)
            (trace w ++
             [Eusb_disabled 0;
              Estarlet_get_ipc_flavour STARLET_IPC_MINI;
              Edev_dbg (dev op)
                ("initializing " +:+ DRV_MODULE_NAME +:+
                 " USB Controller" +:+ nl);
              Eof_address_to_resource (node op) 0 e res])).
Proof.
  intros Hd Hf Hres He. run_M.
  rewrite Hd, Hf, !Z.eqb_refl, Hres. cbn [Z.eqb negb fst snd regs trace].
  apply Z.eqb_neq in He. rewrite He. cbn [negb].
  now rewrite <- !app_assoc.
Qed.

Lemma probe_no_memory `{kernel_headers} (K : kernel) op w res :
  k_usb_disabled K = 0 →
  k_starlet_get_ipc_flavour K = STARLET_IPC_MINI →
  k_of_address_to_resource K (node op) 0 = (0, res) →
  k_usb_create_hcd K (dev op) DRV_MODULE_NAME = None →
  ohci_hcd_mipc_probe K op w =
    Some (- ENOMEM,
          World (regs w)
            (trace w ++
             [Eusb_disabled 0;
              Estarlet_get_ipc_flavour STARLET_IPC_MINI;
              Edev_dbg (dev op)
                ("initializing " +:+ DRV_MODULE_NAME +:+
                 " USB Controller" +:+ nl);
              Eof_address_to_resource (node op) 0 0 res;
              Eusb_create_hcd (dev op) DRV_MODULE_NAME None])).
Proof.
  intros Hd Hf Hres Hc. run_M.
  rewrite Hd, Hf, !Z.eqb_refl, Hres. cbn [Z.eqb negb fst snd regs trace].
  rewrite Hc. cbn [regs trace].
  now rewrite <- !app_assoc.
Qed.

Lemma probe_add_fails `{kernel_headers} (K : kernel) op w res hcd e :
  k_usb_disabled K = 0 →
  k_starlet_get_ipc_flavour K = STARLET_IPC_MINI →
  k_of_address_to_resource K (node op) 0 = (0, res) →
  k_usb_create_hcd K (dev op) DRV_MODULE_NAME = Some hcd →
  k_irq_of_parse_and_map K (node op) 0 ≠ NO_IRQ →
  k_usb_add_hcd K (bound_hcd res hcd)
    (k_irq_of_parse_and_map K (node op) 0) IRQF_DISABLED = e →
  e ≠ 0 →
  ohci_hcd_mipc_probe K op w =
    Some (e, World (regs w)
               (trace w ++
                [Eusb_disabled 0;
                 Estarlet_get_ipc_flavour STARLET_IPC_MINI;
                 Edev_dbg (dev op)
                   ("initializing " +:+ DRV_MODULE_NAME +:+
                    " USB Controller" +:+ nl);
                 Eof_address_to_resource (node op) 0 0 res;
                 Eusb_create_hcd (dev op) DRV_MODULE_NAME (Some hcd);
                 Eirq_of_parse_and_map (node op) 0
                   (k_irq_of_parse_and_map K (node op) 0);
                 Eohci_hcd_init (hcd_to_ohci (bound_hcd res hcd));
                 Eusb_add_hcd (bound_hcd res hcd)
                   (k_irq_of_parse_and_map K (node op) 0) IRQF_DISABLED e;
                 Eirq_dispose_mapping (k_irq_of_parse_and_map K (node op) 0);
                 Eusb_put_hcd (bound_hcd res hcd)])).
Proof.
  intros Hd Hf Hres Hc Hirq Hadd He. run_M.
  rewrite Hd, Hf, !Z.eqb_refl, Hres. cbn [Z.eqb negb fst snd regs trace].
  rewrite Hc. cbn [regs trace].
  apply Z.eqb_neq in Hirq. rewrite Hirq.
  fold (bound_hcd res hcd). rewrite Hadd.
  apply Z.eqb_neq in He. rewrite He. cbn [negb regs trace].
  now rewrite <- !app_assoc.
Qed.

(** X1: with the USB core disabled, or on a firmware whose IPC flavour is
    not 'mini', the probe returns [-ENODEV] after these one or two
    queries alone: it looks nothing up in the device tree, acquires
    nothing and releases nothing.  The flavour is not even asked when
    USB is disabled. *)
Theorem probe_gated `{kernel_headers} (K : kernel) op w :
  k_usb_disabled K ≠ 0 ∨ k_starlet_get_ipc_flavour K ≠ STARLET_IPC_MINI →
  ∃ t,
    ohci_hcd_mipc_probe K op w
      = Some (- ENODEV, World (regs w) (trace w ++ t)) ∧
    (t = [Eusb_disabled (k_usb_disabled K)] ∨
     t = [Eusb_disabled 0;
          Estarlet_get_ipc_flavour (k_starlet_get_ipc_flavour K)]) ∧
    (k_usb_disabled K ≠ 0 → t = [Eusb_disabled (k_usb_disabled K)]) ∧
    acquired t = [] ∧ released t = [].
Proof.
  intros Hgate.
  destruct (Z.eq_dec (k_usb_disabled K) 0) as [Hd|Hd].
  - destruct Hgate as [Hgate|Hf]; [contradiction|].
    eexists. split; [apply (probe_wrong_flavour K op w Hd Hf)|].
    split; [now right|]. split; [intros; contradiction|].
    split; reflexivity.
  - eexists. split; [apply (probe_disabled K op w Hd)|].
    split; [now left|]. split; [reflexivity|]. split; reflexivity.
Qed.

Lemma probe_gated_witness :
  ∃ t,
    ohci_hcd_mipc_probe (H := linux_headers) usb_off sample_op sample_world
      = Some (- 19, World (regs sample_world) (trace sample_world ++ t)) ∧
    (t = [Eusb_disabled 1] ∨
     t = [Eusb_disabled 0; Estarlet_get_ipc_flavour 1]) ∧
    (1 ≠ 0 → t = [Eusb_disabled 1]) ∧
    acquired (H := linux_headers) t = [] ∧ released t = [].
Proof.
  apply (probe_gated (H := linux_headers) usb_off sample_op sample_world).
  left. cbn. lia.
Defined.

(** X2: when the node's register window does not resolve, the probe
    returns the lookup's error code unchanged and stops there: no handle
    is allocated, no interrupt is mapped, nothing is released and nothing
    is logged at error level. *)
Theorem probe_without_window `{kernel_headers} (K : kernel) op w e res :
  k_usb_disabled K = 0 →
  k_starlet_get_ipc_flavour K = STARLET_IPC_MINI →
  k_of_address_to_resource K (node op) 0 = (e, res) →
  e ≠ 0 →
  ∃ pre,
    ohci_hcd_mipc_probe K op w
      = Some (e, World (regs w)
                   (trace w ++ pre ++
                    [Eof_address_to_resource (node op) 0 e res])) ∧
    acquired pre = [] ∧ released pre = [] ∧ diagnostics pre = [] ∧
    acquired [Eof_address_to_resource (node op) 0 e res] = [].
Proof.
  intros Hd Hf Hres He.
  exists [Eusb_disabled 0; Estarlet_get_ipc_flavour STARLET_IPC_MINI;
          Edev_dbg (dev op)
            ("initializing " +:+ DRV_MODULE_NAME +:+
             " USB Controller" +:+ nl)].
  split; [apply (probe_no_window K op w e res Hd Hf Hres He)|].
  repeat split.
Qed.

Lemma probe_without_window_witness :
  ∃ pre,
    ohci_hcd_mipc_probe (H := linux_headers) no_window sample_op sample_world
      = Some (-22, World (regs sample_world)
                     (trace sample_world ++ pre ++
                      [Eof_address_to_resource 7 0 (-22) (Resource 0 0)])) ∧
    acquired (H := linux_headers) pre = [] ∧ released pre = [] ∧
    diagnostics pre = [] ∧
    acquired (H := linux_headers)
      [Eof_address_to_resource 7 0 (-22) (Resource 0 0)] = [].
Proof.
  apply (probe_without_window (H := linux_headers) no_window sample_op
           sample_world (-22) (Resource 0 0) eq_refl eq_refl eq_refl).
  lia.
Defined.

(** X3: when [usb_create_hcd] returns NULL the probe returns [-ENOMEM]
    at once: the interrupt line is never looked up, and [usb_put_hcd] is
    not called on the NULL handle. *)
Theorem probe_without_memory `{kernel_headers} (K : kernel) op w res :
  k_usb_disabled K = 0 →
  k_starlet_get_ipc_flavour K = STARLET_IPC_MINI →
  k_of_address_to_resource K (node op) 0 = (0, res) →
  k_usb_create_hcd K (dev op) DRV_MODULE_NAME = None →
  ∃ pre,
    ohci_hcd_mipc_probe K op w
      = Some (- ENOMEM,
              World (regs w)
                (trace w ++ pre ++
                 [Eusb_create_hcd (dev op) DRV_MODULE_NAME None])) ∧
    pre = [Eusb_disabled 0;
           Estarlet_get_ipc_flavour STARLET_IPC_MINI;
           Edev_dbg (dev op)
             ("initializing " +:+ DRV_MODULE_NAME +:+
              " USB Controller" +:+ nl);
           Eof_address_to_resource (node op) 0 0 res] ∧
    acquired (pre ++ [Eusb_create_hcd (dev op) DRV_MODULE_NAME None]) = [] ∧
    released (pre ++ [Eusb_create_hcd (dev op) DRV_MODULE_NAME None]) = [].
Proof.
  intros Hd Hf Hres Hc.
  exists [Eusb_disabled 0; Estarlet_get_ipc_flavour STARLET_IPC_MINI;
          Edev_dbg (dev op)
            ("initializing " +:+ DRV_MODULE_NAME +:+
             " USB Controller" +:+ nl);
          Eof_address_to_resource (node op) 0 0 res].
  split; [apply (probe_no_memory K op w res Hd Hf Hres Hc)|].
  repeat split.
Qed.

Lemma probe_without_memory_witness :
  ∃ pre,
    ohci_hcd_mipc_probe (H := linux_headers) no_memory sample_op sample_world
      = Some (- 12,
              World (regs sample_world)
                (trace sample_world ++ pre ++
                 [Eusb_create_hcd 9 DRV_MODULE_NAME None])) ∧
    pre = [Eusb_disabled 0;
           Estarlet_get_ipc_flavour 1;
           Edev_dbg 9
             ("initializing " +:+ DRV_MODULE_NAME +:+
              " USB Controller" +:+ nl);
           Eof_address_to_resource 7 0 0 (Resource 0x0d060000 0x0d0601ff)] ∧
    acquired (H := linux_headers)
      (pre ++ [Eusb_create_hcd 9 DRV_MODULE_NAME None]) = [] ∧
    released (pre ++ [Eusb_create_hcd 9 DRV_MODULE_NAME None]) = [].
Proof.
  exact (probe_without_memory (H := linux_headers) no_memory sample_op
           sample_world _ eq_refl eq_refl eq_refl eq_refl).
Defined.

(** X4: when [usb_add_hcd] fails, the probe returns its error code
    unchanged, after disposing of the very interrupt mapping it had made
    and then giving back the very handle it had filled in; the engine's
    private area was initialised ([ohci_hcd_init]) before the
    registration was attempted. *)
Theorem probe_add_failure `{kernel_headers} (K : kernel) op w res hcd e :
  k_usb_disabled K = 0 →
  k_starlet_get_ipc_flavour K = STARLET_IPC_MINI →
  k_of_address_to_resource K (node op) 0 = (0, res) →
  k_usb_create_hcd K (dev op) DRV_MODULE_NAME = Some hcd →
  k_irq_of_parse_and_map K (node op) 0 ≠ NO_IRQ →
  k_usb_add_hcd K (bound_hcd res hcd)
    (k_irq_of_parse_and_map K (node op) 0) IRQF_DISABLED = e →
  e ≠ 0 →
  ∃ pre h irq,
    ohci_hcd_mipc_probe K op w
      = Some (e, World (regs w)
                   (trace w ++ pre ++
                    [Eirq_of_parse_and_map (node op) 0 irq;
                     Eohci_hcd_init (hcd_to_ohci h);
                     Eusb_add_hcd h irq IRQF_DISABLED e;
                     Eirq_dispose_mapping irq;
                     Eusb_put_hcd h])) ∧
    hcd_addr h = hcd_addr hcd ∧
    released pre = [] ∧ diagnostics pre = [].
Proof.
  intros Hd Hf Hres Hc Hirq Hadd He.
  exists [Eusb_disabled 0; Estarlet_get_ipc_flavour STARLET_IPC_MINI;
          Edev_dbg (dev op)
            ("initializing " +:+ DRV_MODULE_NAME +:+
             " USB Controller" +:+ nl);
          Eof_address_to_resource (node op) 0 0 res;
          Eusb_create_hcd (dev op) DRV_MODULE_NAME (Some hcd)].
  exists (bound_hcd res hcd), (k_irq_of_parse_and_map K (node op) 0).
  split; [apply (probe_add_fails K op w res hcd e Hd Hf Hres Hc Hirq Hadd He)|].
  repeat split.
Qed.

Lemma probe_add_failure_witness :
  ∃ pre h irq,
    ohci_hcd_mipc_probe (H := linux_headers) run_fails sample_op sample_world
      = Some (5, World (regs sample_world)
                   (trace sample_world ++ pre ++
                    [Eirq_of_parse_and_map 7 0 irq;
                     Eohci_hcd_init (hcd_to_ohci h);
                     Eusb_add_hcd h irq 32 5;
                     Eirq_dispose_mapping irq;
                     Eusb_put_hcd h])) ∧
    hcd_addr h = 0x1000 ∧
    released pre = [] ∧ diagnostics pre = [].
Proof.
  apply (probe_add_failure (H := linux_headers) run_fails sample_op
           sample_world (Resource 0x0d060000 0x0d0601ff) sample_hcd 5
           eq_refl eq_refl eq_refl eq_refl);
    [cbn; lia|reflexivity|lia].
Defined.

(** X5: the handle the probe hands to [usb_add_hcd] describes the node's
    register window.  For a window [start..end] that fits the resource
    type, its [rsrc_start] is [start], its [rsrc_len] is
    [end - start + 1], so that the window's end is recovered as
    [rsrc_start + rsrc_len - 1], and its [regs] are the low 32 bits of
    [start]; the handle's address, interrupt field and bus name are as
    [usb_create_hcd] returned them, and the registration is asked for the
    interrupt that was mapped, with [IRQF_DISABLED]. *)
Theorem probe_binds_window `{kernel_headers} (K : kernel) op w res hcd :
  k_usb_disabled K = 0 →
  k_starlet_get_ipc_flavour K = STARLET_IPC_MINI →
  k_of_address_to_resource K (node op) 0 = (0, res) →
  k_usb_create_hcd K (dev op) DRV_MODULE_NAME = Some hcd →
  k_irq_of_parse_and_map K (node op) 0 ≠ NO_IRQ →
  0 ≤ res_start res ≤ res_end res →
  res_end res - res_start res + 1 < 2 ^ resource_size_bits →
  ∃ r t h e,
    ohci_hcd_mipc_probe K op w = Some (r, World (regs w) (trace w ++ t)) ∧
    In (Eusb_add_hcd h (k_irq_of_parse_and_map K (node op) 0)
          IRQF_DISABLED e) t ∧
    rsrc_start h = res_start res ∧
    rsrc_len h = res_end res - res_start res + 1 ∧
    rsrc_start h + rsrc_len h - 1 = res_end res ∧
    hcd_regs h = res_start res mod 2 ^ 32 ∧
    (res_start res < 2 ^ 32 → hcd_regs h = res_start res) ∧
    hcd_addr h = hcd_addr hcd ∧
    hcd_irq h = hcd_irq hcd ∧
    self_bus_name h = self_bus_name hcd.
Proof.
  intros Hd Hf Hres Hc Hirq Hwin Hfit.
  assert (Hlen : rsrc_len (bound_hcd res hcd)
                 = res_end res - res_start res + 1).
  { cbn. unfold wrap. apply Z.mod_small. lia. }
  assert (Hfields :
    rsrc_start (bound_hcd res hcd) = res_start res ∧
    rsrc_len (bound_hcd res hcd) = res_end res - res_start res + 1 ∧
    rsrc_start (bound_hcd res hcd) + rsrc_len (bound_hcd res hcd) - 1
      = res_end res ∧
    hcd_regs (bound_hcd res hcd) = res_start res mod 2 ^ 32 ∧
    (res_start res < 2 ^ 32 →
     hcd_regs (bound_hcd res hcd) = res_start res) ∧
    hcd_addr (bound_hcd res hcd) = hcd_addr hcd ∧
    hcd_irq (bound_hcd res hcd) = hcd_irq hcd ∧
    self_bus_name (bound_hcd res hcd) = self_bus_name hcd).
  { split; [reflexivity|]. split; [exact Hlen|].
    split; [rewrite Hlen; cbn; lia|]. split; [reflexivity|].
    split; [|repeat split].
    intros Hlow. cbn. unfold wrap. apply Z.mod_small. lia. }
  destruct (Z.eq_dec (k_usb_add_hcd K (bound_hcd res hcd)
                        (k_irq_of_parse_and_map K (node op) 0)
                        IRQF_DISABLED) 0) as [Hadd|Hadd].
  - eexists _, _, (bound_hcd res hcd), 0.
    split; [apply (probe_succeeds K op w res hcd Hd Hf Hres Hc Hirq Hadd)|].
    split; [|exact Hfields].
    do 7 right. now left.
  - eexists _, _, (bound_hcd res hcd), _.
    split; [apply (probe_add_fails K op w res hcd _ Hd Hf Hres Hc Hirq
                     eq_refl Hadd)|].
    split; [|exact Hfields].
    do 7 right. now left.
Qed.

Lemma probe_binds_window_witness :
  ∃ r t h e,
    ohci_hcd_mipc_probe (H := linux_headers) all_fine sample_op sample_world
      = Some (r, World (regs sample_world) (trace sample_world ++ t)) ∧
    In (Eusb_add_hcd h 5 32 e) t ∧
    rsrc_start h = 0x0d060000 ∧
    rsrc_len h = 0x0d0601ff - 0x0d060000 + 1 ∧
    rsrc_start h + rsrc_len h - 1 = 0x0d0601ff ∧
    hcd_regs h = 0x0d060000 mod 2 ^ 32 ∧
    (0x0d060000 < 2 ^ 32 → hcd_regs h = 0x0d060000) ∧
    hcd_addr h = 0x1000 ∧
    hcd_irq h = 0 ∧
    self_bus_name h = "usb1"%string.
Proof.
  apply (probe_binds_window (H := linux_headers) all_fine sample_op
           sample_world (Resource 0x0d060000 0x0d0601ff) sample_hcd
           eq_refl eq_refl eq_refl eq_refl); cbn; lia.
Defined.

(** X6: the one failure the probe reports at error level is the
    interrupt line that does not map.  Whatever the collaborators
    answer, the probe logs either nothing at error level, or the single
    message "...: irq_of_parse_and_map failed", and then it returns
    [-EBUSY] and the interrupt lookup has answered [NO_IRQ]. *)
Theorem probe_logs_only_irq_failure `{kernel_headers} (K : kernel) op w :
  ∃ r t,
    ohci_hcd_mipc_probe K op w = Some (r, World (regs w) (trace w ++ t)) ∧
    (diagnostics t = [] ∨
     diagnostics t =
       [Eprintk KERN_ERR (FILE__ +:+ ": irq_of_parse_and_map failed" +:+ nl)]
     ∧ r = - EBUSY
     ∧ k_irq_of_parse_and_map K (node op) 0 = NO_IRQ).
Proof.
  run_M.
  destruct (k_usb_disabled K =? 0) eqn:Hd; cbn [negb];
    [|new_trace; now left].
  destruct (k_starlet_get_ipc_flavour K =? STARLET_IPC_MINI) eqn:Hf;
    cbn [negb]; [|new_trace; now left].
  destruct (k_of_address_to_resource K (node op) 0) as [error res] eqn:Hres.
  cbn [fst snd regs trace].
  destruct (error =? 0) eqn:He; cbn [negb]; [|new_trace; now left].
  destruct (k_usb_create_hcd K (dev op) DRV_MODULE_NAME) as [hcd|] eqn:Hc;
    [|new_trace; now left].
  cbn [regs trace].
  destruct (k_irq_of_parse_and_map K (node op) 0 =? NO_IRQ) eqn:Hirq;
    cbn [negb].
  { new_trace. right. apply Z.eqb_eq in Hirq. repeat split. exact Hirq. }
  fold (bound_hcd res hcd).
  destruct (k_usb_add_hcd K (bound_hcd res hcd)
              (k_irq_of_parse_and_map K (node op) 0) IRQF_DISABLED =? 0)
    eqn:Hadd; cbn [negb]; new_trace; now left.
Qed.

(** *** More on the start *)

(** X7: when [ohci_init] fails, [ohci_mipc_start] returns its error code
    at once: it neither reads nor writes the shared interrupt-control
    register, does not run the engine, does not stop it and logs
    nothing; the registers are as [ohci_init] left them. *)
Theorem start_init_failure_is_silent K hcd w e r1 :
  k_ohci_init K (hcd_to_ohci hcd) (regs w) = (e, r1) →
  e ≠ 0 →
  ∃ t,
    ohci_mipc_start K hcd w = Some (e, World r1 (trace w ++ t)) ∧
    t = [Eohci_init (hcd_to_ohci hcd) e] ∧
    writes t = [] ∧ stops t = [] ∧ diagnostics t = [].
Proof.
  intros Hi He. eexists.
  split; [apply (start_init_fails K hcd w e r1 Hi He)|].
  repeat split.
Qed.

Lemma start_init_failure_is_silent_witness :
  ∃ t,
    ohci_mipc_start init_fails sample_hcd sample_world
      = Some (-12, World (λ _, 0) (trace sample_world ++ t)) ∧
    t = [Eohci_init (hcd_to_ohci sample_hcd) (-12)] ∧
    writes t = [] ∧ stops t = [] ∧ diagnostics t = [].
Proof.
  apply (start_init_failure_is_silent init_fails sample_hcd sample_world
           (-12) (λ _, 0) eq_refl).
  lia.
Defined.

(** X8: the outcome of [ohci_mipc_start] in terms of the engine's two
    answers.  It returns the code of [ohci_init] when that is not 0 and
    the code of [ohci_run] otherwise, hence 0 exactly when both
    succeeded; it writes the shared register once exactly when
    [ohci_init] succeeded; it stops the engine, and logs its one
    diagnostic, exactly when [ohci_init] succeeded and [ohci_run]
    failed. *)
Theorem start_outcome K hcd w e1 r1 e2 r3 :
  k_ohci_init K (hcd_to_ohci hcd) (regs w) = (e1, r1) →
  k_ohci_run K (hcd_to_ohci hcd)
    (<[HOLLYWOOD_EHCI_CTL := ehci_ctl_enable (r1 HOLLYWOOD_EHCI_CTL)]> r1)
    = (e2, r3) →
  ∃ r w' t,
    ohci_mipc_start K hcd w = Some (r, w') ∧
    trace w' = trace w ++ t ∧
    r = (if e1 =? 0 then e2 else e1) ∧
    (r = 0 ↔ e1 = 0 ∧ e2 = 0) ∧
    writes t =
      (if e1 =? 0
       then [(HOLLYWOOD_EHCI_CTL, ehci_ctl_enable (r1 HOLLYWOOD_EHCI_CTL))]
       else []) ∧
    stops t = (if (e1 =? 0) && negb (e2 =? 0) then [hcd] else []) ∧
    length (diagnostics t)
      = (if (e1 =? 0) && negb (e2 =? 0) then 1%nat else 0%nat) ∧
    regs w' =
      (if e1 =? 0
       then if e2 =? 0 then r3 else k_ohci_stop K hcd r3
       else r1).
Proof.
  intros Hi Hr.
  destruct (Z.eq_dec e1 0) as [->|He1].
  - destruct (Z.eq_dec e2 0) as [->|He2].
    + eexists _, _, _.
      split; [apply (start_succeeds K hcd w r1 r3 Hi Hr)|].
      cbn. repeat split; auto.
    + eexists _, _, _.
      split; [apply (start_run_fails K hcd w r1 e2 r3 Hi Hr He2)|].
      pose proof He2 as Hb. apply Z.eqb_neq in Hb. rewrite Hb.
      cbn. intuition congruence.
  - eexists _, _, _.
    split; [apply (start_init_fails K hcd w e1 r1 Hi He1)|].
    pose proof He1 as Hb. apply Z.eqb_neq in Hb. rewrite Hb.
    cbn. intuition congruence.
Qed.

Lemma start_outcome_witness :
  ∃ r w' t,
    ohci_mipc_start run_fails sample_hcd sample_world = Some (r, w') ∧
    trace w' = trace sample_world ++ t ∧
    r = (if 0 =? 0 then 5 else 0) ∧
    (r = 0 ↔ 0 = 0 ∧ 5 = 0) ∧
    writes t =
      (if 0 =? 0
       then [(HOLLYWOOD_EHCI_CTL, ehci_ctl_enable 0)]
       else []) ∧
    stops t = (if (0 =? 0) && negb (5 =? 0) then [sample_hcd] else []) ∧
    length (diagnostics t)
      = (if (0 =? 0) && negb (5 =? 0) then 1%nat else 0%nat) ∧
    regs w' =
      (if 0 =? 0
       then if 5 =? 0
            then <[HOLLYWOOD_EHCI_CTL := ehci_ctl_enable 0]> (λ _, 0)
            else <[HOLLYWOOD_EHCI_CTL := ehci_ctl_enable 0]> (λ _, 0)
       else λ _, 0).
Proof.
  exact (start_outcome run_fails sample_hcd sample_world 0 (λ _, 0) 5
           (<[HOLLYWOOD_EHCI_CTL := ehci_ctl_enable 0]> (λ _, 0))
           eq_refl eq_refl).
Defined.

(** X9: enabling twice is enabling once.  On a register that already
    holds the result of an earlier enable sequence (as when the board's
    other controller has started before), the value [ohci_mipc_start]
    writes is the value it has just read: the write leaves the register
    as it was. *)
Theorem start_enable_idempotent K hcd w r1 v :
  k_ohci_init K (hcd_to_ohci hcd) (regs w) = (0, r1) →
  r1 HOLLYWOOD_EHCI_CTL = ehci_ctl_enable v →
  ∃ e w' t,
    ohci_mipc_start K hcd w = Some (e, w') ∧
    trace w' = trace w ++ t ∧
    writes t = [(HOLLYWOOD_EHCI_CTL, r1 HOLLYWOOD_EHCI_CTL)] ∧
    ∀ a, (<[HOLLYWOOD_EHCI_CTL :=
             ehci_ctl_enable (r1 HOLLYWOOD_EHCI_CTL)]> r1) a = r1 a.
Proof.
  intros Hi Hv.
  destruct (start_after_init K hcd w r1 Hi) as (e & w' & post & Hs & Ht & Hw).
  assert (Hsame : ehci_ctl_enable (r1 HOLLYWOOD_EHCI_CTL)
                  = r1 HOLLYWOOD_EHCI_CTL)
    by (rewrite Hv; apply ehci_ctl_enable_idem).
  eexists e, w', _. split; [exact Hs|]. split; [exact Ht|]. split.
  - unfold writes in *. rewrite omap_app, Hw. cbn. now rewrite Hsame.
  - intros a. rewrite Hsame.
    destruct (Z.eq_dec a HOLLYWOOD_EHCI_CTL) as [->|Ha].
    + apply fn_lookup_insert.
    + apply fn_lookup_insert_ne. congruence.
Qed.

Lemma start_enable_idempotent_witness :
  ∃ e w' t,
    ohci_mipc_start all_fine sample_hcd enabled_world = Some (e, w') ∧
    trace w' = trace enabled_world ++ t ∧
    writes t = [(HOLLYWOOD_EHCI_CTL, regs enabled_world HOLLYWOOD_EHCI_CTL)] ∧
    ∀ a, (<[HOLLYWOOD_EHCI_CTL :=
             ehci_ctl_enable (regs enabled_world HOLLYWOOD_EHCI_CTL)]>
            (regs enabled_world)) a = regs enabled_world a.
Proof.
  exact (start_enable_idempotent all_fine sample_hcd enabled_world
           (regs enabled_world) 0 eq_refl eq_refl).
Defined.

(** X10: the enable sequence never leaves the 32 bits of the register.
    When the value read fits in 32 bits, so does the value
    [ohci_mipc_start] writes back: the OR of the C expression cannot
    wrap. *)
Theorem start_write_fits_32_bits K hcd w r1 :
  k_ohci_init K (hcd_to_ohci hcd) (regs w) = (0, r1) →
  0 ≤ r1 HOLLYWOOD_EHCI_CTL < 2 ^ 32 →
  ∃ e w' t x,
    ohci_mipc_start K hcd w = Some (e, w') ∧
    trace w' = trace w ++ t ∧
    writes t = [(HOLLYWOOD_EHCI_CTL, x)] ∧
    0 ≤ x < 2 ^ 32 ∧
    wrap 32 x = x.
Proof.
  intros Hi Hv.
  destruct (start_after_init K hcd w r1 Hi) as (e & w' & post & Hs & Ht & Hw).
  pose proof (ehci_ctl_enable_range _ Hv) as Hx.
  eexists e, w', _, (ehci_ctl_enable (r1 HOLLYWOOD_EHCI_CTL)).
  split; [exact Hs|]. split; [exact Ht|]. split.
  - unfold writes in *. rewrite omap_app, Hw. reflexivity.
  - split; [exact Hx|]. unfold wrap. apply Z.mod_small. exact Hx.
Qed.

Lemma start_write_fits_32_bits_witness :
  ∃ e w' t x,
    ohci_mipc_start all_fine sample_hcd sample_world = Some (e, w') ∧
    trace w' = trace sample_world ++ t ∧
    writes t = [(HOLLYWOOD_EHCI_CTL, x)] ∧
    0 ≤ x < 2 ^ 32 ∧
    wrap 32 x = x.
Proof.
  apply (start_write_fits_32_bits all_fine sample_hcd sample_world
           (λ _, 0) eq_refl).
  cbn. lia.
Defined.

(** *** More on two starts interleaved *)

(** X11: at no point of any interleaving of the two starts, complete or
    not, does the shared register hold anything but its old value or its
    old value ORed with [0xe1800]: no bit that was set is ever cleared,
    and no other register is touched. *)
Theorem interleaving_never_clears w sched :
  let σ := sys_run sched (sys_init w) in
  let v := regs w HOLLYWOOD_EHCI_CTL in
  let v' := regs (shared σ) HOLLYWOOD_EHCI_CTL in
  (v' = v ∨ v' = Z.lor v ehci_ctl_bits) ∧
  (∀ n, Z.testbit v n = true → Z.testbit v' n = true) ∧
  (∀ a, a ≠ HOLLYWOOD_EHCI_CTL → regs (shared σ) a = regs w a).
Proof.
  intros σ v v'.
  destruct (sys_run_inv (regs w) sched _ (sys_init_inv w))
    as (Hreg & _ & _ & Hfar).
  fold σ in Hreg, Hfar. cbn zeta in Hreg. fold v v' in Hreg.
  rewrite <- ehci_ctl_enable_lor.
  split; [exact Hreg|]. split; [|exact Hfar].
  intros n Hn. destruct Hreg as [->| ->]; [exact Hn|].
  rewrite ehci_ctl_enable_testbit, Hn. reflexivity.
Qed.








Lemma finished_le_2 σ : (finished σ ≤ 2)%nat.
Proof.
  unfold finished.
  destruct (is_finished (thr0 σ)), (is_finished (thr1 σ)); lia.
Qed.

Lemma sys_step_writes r0 t0 s σ :
  rmw_inv r0 σ →
  writes (trace (shared σ)) =
    writes t0 ++
    replicate (finished σ)
      (HOLLYWOOD_EHCI_CTL, ehci_ctl_enable (r0 HOLLYWOOD_EHCI_CTL)) →
  writes (trace (shared (sys_step s σ))) =
    writes t0 ++
    replicate (finished (sys_step s σ))
      (HOLLYWOOD_EHCI_CTL, ehci_ctl_enable (r0 HOLLYWOOD_EHCI_CTL)).
Proof.
  intros (_ & H0 & H1 & _) Hw.
  unfold sys_step, finished in *.
  destruct s; cbn [thr].
  - destruct (thr0 σ) as [|x|] eqn:Ht0; cbn [rmw_ok is_finished] in *.
    + run_M. cbn [set_thr shared thr0 thr1 trace is_finished].
      unfold writes in *. rewrite omap_app, Hw. cbn. now rewrite app_nil_r.
    + run_M. cbn [set_thr shared thr0 thr1 trace is_finished].
      assert (Hx : ehci_ctl_enable x
                   = ehci_ctl_enable (r0 HOLLYWOOD_EHCI_CTL))
        by (destruct H0 as [->| ->]; [|rewrite ehci_ctl_enable_idem];
            reflexivity).
      unfold writes in *. rewrite omap_app, Hw. cbn [omap list_omap].
      rewrite Hx, <- app_assoc. f_equal.
      change (1 + ?n)%nat with (S n). now rewrite replicate_S_end.
    + rewrite Ht0. exact Hw.
  - destruct (thr1 σ) as [|x|] eqn:Ht1; cbn [rmw_ok is_finished] in *.
    + run_M. cbn [set_thr shared thr0 thr1 trace is_finished].
      unfold writes in *. rewrite omap_app, Hw. cbn. now rewrite app_nil_r.
    + run_M. cbn [set_thr shared thr0 thr1 trace is_finished].
      assert (Hx : ehci_ctl_enable x
                   = ehci_ctl_enable (r0 HOLLYWOOD_EHCI_CTL))
        by (destruct H1 as [->| ->]; [|rewrite ehci_ctl_enable_idem];
            reflexivity).
      unfold writes in *. rewrite omap_app, Hw. cbn [omap list_omap].
      rewrite Hx, <- app_assoc. f_equal.
      rewrite Nat.add_1_r, Nat.add_0_r. now rewrite replicate_S_end.
    + rewrite Ht1. exact Hw.
Qed.

Lemma sys_run_writes r0 t0 sched : ∀ σ,
  rmw_inv r0 σ →
  writes (trace (shared σ)) =
    writes t0 ++
    replicate (finished σ)
      (HOLLYWOOD_EHCI_CTL, ehci_ctl_enable (r0 HOLLYWOOD_EHCI_CTL)) →
  writes (trace (shared (sys_run sched σ))) =
    writes t0 ++
    replicate (finished (sys_run sched σ))
      (HOLLYWOOD_EHCI_CTL, ehci_ctl_enable (r0 HOLLYWOOD_EHCI_CTL)).
Proof.
  unfold sys_run.
  induction sched as [|s sched IH]; intros σ Hinv Hw; cbn [fold_left].
  - exact Hw.
  - apply IH; [now apply sys_step_inv|now apply sys_step_writes].
Qed.

(** X13: in every interleaving, every write of the shared register
    stores the same value, the old value ORed with [0xe1800]: one write
    per slot that has finished, at most two in all, and none of them can
    undo the other. *)
Theorem interleaving_writes_agree w sched :
  let σ := sys_run sched (sys_init w) in
  writes (trace (shared σ)) =
    writes (trace w) ++
    replicate (finished σ)
      (HOLLYWOOD_EHCI_CTL,
       Z.lor (regs w HOLLYWOOD_EHCI_CTL) ehci_ctl_bits) ∧
  (finished σ ≤ 2)%nat ∧
  (both_finished σ = true → finished σ = 2%nat).
Proof.
  intros σ. rewrite <- ehci_ctl_enable_lor. split.
  - apply sys_run_writes; [apply sys_init_inv|].
    cbn. now rewrite app_nil_r.
  - split; [apply finished_le_2|].
    unfold both_finished, finished.
    destruct (thr0 σ), (thr1 σ); cbn; congruence.
Qed.

(** *** More on the remove path *)


(** X15: probe and remove balance.  When the probe has succeeded and the
    driver data then holds the handle it registered, with the interrupt
    it mapped, the removal gives back, most recent first, everything the
    probe acquired: over the two runs together nothing stays held. *)
Theorem probe_remove_round_trip `{kernel_headers} (K K' : kernel) op w
    res hcd hcd' w1 :
  k_usb_disabled K = 0 →
  k_starlet_get_ipc_flavour K = STARLET_IPC_MINI →
  k_of_address_to_resource K (node op) 0 = (0, res) →
  k_usb_create_hcd K (dev op) DRV_MODULE_NAME = Some hcd →
  k_irq_of_parse_and_map K (node op) 0 ≠ NO_IRQ →
  k_usb_add_hcd K (bound_hcd res hcd)
    (k_irq_of_parse_and_map K (node op) 0) IRQF_DISABLED = 0 →
  k_dev_get_drvdata K' (dev op) = Some hcd' →
  hcd_addr hcd' = hcd_addr hcd →
  hcd_irq hcd' = k_irq_of_parse_and_map K (node op) 0 →
  ohci_hcd_mipc_probe K op w = Some (0, w1) →
  ∃ t,
    ohci_hcd_mipc_remove K' op w1
      = Some (0, World (regs w) (trace w ++ t)) ∧
    settle [] t = Some [] ∧
    released t = rev (acquired t).
Proof.
  intros Hd Hf Hres Hc Hirq Hadd Hdata Haddr Hhirq Hprobe.
  rewrite (probe_succeeds K op w res hcd Hd Hf Hres Hc Hirq Hadd) in Hprobe.
  injection Hprobe as <-.
  rewrite (remove_run K' op _ hcd' Hdata). cbn [regs trace].
  eexists. split; [now rewrite <- app_assoc|]. split.
  - rewrite settle_app. cbn [settle acquires releases].
    apply Z.eqb_neq in Hirq. rewrite Hirq, Z.eqb_refl.
    cbn [mbind option_bind].
    change (hcd_addr (bound_hcd res hcd)) with (hcd_addr hcd).
    rewrite <- Haddr, <- Hhirq. now rewrite !decide_True by reflexivity.
  - unfold released, acquired. rewrite !omap_app. cbn.
    apply Z.eqb_neq in Hirq. rewrite Hirq. cbn.
    now rewrite Haddr, Hhirq.
Qed.

Lemma probe_remove_round_trip_witness :
  ∃ t,
    ohci_hcd_mipc_remove registered sample_op
      (World (regs sample_world)
         (trace sample_world ++
          [Eusb_disabled 0;
           Estarlet_get_ipc_flavour 1;
           Edev_dbg 9
             ("initializing " +:+ DRV_MODULE_NAME +:+
              " USB Controller" +:+ nl);
           Eof_address_to_resource 7 0 0 (Resource 0x0d060000 0x0d0601ff);
           Eusb_create_hcd 9 DRV_MODULE_NAME (Some sample_hcd);
           Eirq_of_parse_and_map 7 0 5;
           Eohci_hcd_init
             (hcd_to_ohci
                (bound_hcd (H := linux_headers)
                   (Resource 0x0d060000 0x0d0601ff) sample_hcd));
           Eusb_add_hcd
             (bound_hcd (H := linux_headers)
                (Resource 0x0d060000 0x0d0601ff) sample_hcd) 5 32 0]))
      = Some (0, World (regs sample_world) (trace sample_world ++ t)) ∧
    settle (H := linux_headers) [] t = Some [] ∧
    released t = rev (acquired (H := linux_headers) t).
Proof.
  apply (probe_remove_round_trip (H := linux_headers) all_fine registered
           sample_op sample_world (Resource 0x0d060000 0x0d0601ff)
           sample_hcd registered_hcd);
    try reflexivity.
  cbn. lia.
Defined.

End OhciMipcSpec.

(** ** Properties of arch/powerpc/platforms/embedded6xx/wii.c *)
Module WiiSpec.
Import Wii.

Ltac run_M :=
  cbv [wii_restart wii_power_off wii_halt wii_machine_kexec wii_shutdown
       local_irq_disable starlet_es_reload_ios_and_launch
       starlet_stm_restart starlet_stm_power_off
       starlet_es_reload_ios_and_discard default_machine_kexec
       exi_quiesce remote emit mbind mret run_bind run_ret].

(** The spin never returns: whatever the fuel, the run is still inside
    the loop, having only relaxed the processor. *)
Lemma forever_cpu_relax fuel : ∀ w,
  forever (A := unit) fuel cpu_relax w =
    Spinning (World (irqs_enabled w) (trace w ++ replicate fuel Ecpu_relax)).
Proof.
  induction fuel as [|fuel IH]; intros w; cbn [forever replicate].
  - rewrite app_nil_r. now destruct w.
  - unfold mbind, run_bind, cpu_relax, emit. rewrite IH.
    cbn [irqs_enabled trace]. now rewrite <- app_assoc.
Qed.

Lemma remote_calls_app t1 t2 :
  remote_calls (t1 ++ t2) = remote_calls t1 ++ remote_calls t2.
Proof. apply List.filter_app. Qed.

Lemma remote_calls_cpu_relax n : remote_calls (replicate n Ecpu_relax) = [].
Proof. induction n as [|n IH]; [reflexivity|exact IH]. Qed.

Section Board.
Variable STARLET_TITLE_HBC : Z.
Variable F : firmware.
Variable w : world.

Lemma restart_launch_handled fuel cmd :
  f_es_reload_ios_and_launch F STARLET_TITLE_HBC = Handled →
  wii_restart STARLET_TITLE_HBC F fuel cmd w =
    Gone (World false
            (trace w ++
             [Elocal_irq_disable;
              Estarlet_es_reload_ios_and_launch STARLET_TITLE_HBC])).
Proof.
  intros Hl. run_M. rewrite Hl. cbn [irqs_enabled trace].
  now rewrite <- app_assoc.
Qed.

Lemma restart_stm_handled fuel cmd :
  f_es_reload_ios_and_launch F STARLET_TITLE_HBC = FellThrough →
  f_stm_restart F = Handled →
  wii_restart STARLET_TITLE_HBC F fuel cmd w =
    Gone (World false
            (trace w ++
             [Elocal_irq_disable;
              Estarlet_es_reload_ios_and_launch STARLET_TITLE_HBC;
              Estarlet_stm_restart])).
Proof.
  intros Hl Hr. run_M. rewrite Hl. cbn [irqs_enabled trace]. rewrite Hr.
  now rewrite <- !app_assoc.
Qed.

Lemma restart_spins fuel cmd :
  f_es_reload_ios_and_launch F STARLET_TITLE_HBC = FellThrough →
  f_stm_restart F = FellThrough →
  wii_restart STARLET_TITLE_HBC F fuel cmd w =
    Spinning (World false
                (trace w ++
                 [Elocal_irq_disable;
                  Estarlet_es_reload_ios_and_launch STARLET_TITLE_HBC;
                  Estarlet_stm_restart] ++ replicate fuel Ecpu_relax)).
Proof.
  intros Hl Hr. run_M. rewrite Hl. cbn [irqs_enabled trace]. rewrite Hr.
  rewrite forever_cpu_relax. cbn [irqs_enabled trace].
  now rewrite <- !app_assoc.
Qed.

Lemma power_off_spins fuel :
  f_stm_power_off F = FellThrough →
  wii_power_off F fuel w =
    Spinning (World false
                (trace w ++
                 [Elocal_irq_disable; Estarlet_stm_power_off]
                 ++ replicate fuel Ecpu_relax)).
Proof.
  intros Hp. run_M. rewrite Hp. cbn [irqs_enabled trace].
  rewrite forever_cpu_relax. cbn [irqs_enabled trace].
  now rewrite <- !app_assoc.
Qed.

Lemma power_off_handled fuel :
  f_stm_power_off F = Handled →
  wii_power_off F fuel w =
    Gone (World false
            (trace w ++ [Elocal_irq_disable; Estarlet_stm_power_off])).
Proof.
  intros Hp. run_M. rewrite Hp. cbn [irqs_enabled trace].
  now rewrite <- !app_assoc.
Qed.

End Board.

(** C7: [wii_restart] disables interrupts, makes the primary remote call
    (reload the alternate title and launch it) and, when that one comes
    back, the fallback remote call (assisted restart), in this order;
    when neither takes effect it spins for ever with interrupts disabled.
    [wii_power_off] disables interrupts, makes its one remote call and,
    when it comes back, spins for ever with interrupts disabled.  The
    spin makes no remote call, so there is never a third one, and neither
    function ever returns. *)
Theorem restart_and_power_off_sequence (STARLET_TITLE_HBC : Z)
    (F : firmware) (cmd : option string) (w : world) (fuel : nat) :
  let primary := Estarlet_es_reload_ios_and_launch STARLET_TITLE_HBC in
  let fallback := Estarlet_stm_restart in
  let spin := replicate fuel Ecpu_relax in
  wii_restart STARLET_TITLE_HBC F fuel cmd w =
    match f_es_reload_ios_and_launch F STARLET_TITLE_HBC, f_stm_restart F with
    | Handled, _ =>
      Gone (World false (trace w ++ [Elocal_irq_disable; primary]))
    | FellThrough, Handled =>
      Gone (World false (trace w ++ [Elocal_irq_disable; primary; fallback]))
    | FellThrough, FellThrough =>
      Spinning (World false
                  (trace w ++ [Elocal_irq_disable; primary; fallback] ++ spin))
    end ∧
  wii_power_off F fuel w =
    match f_stm_power_off F with
    | Handled =>
      Gone (World false (trace w ++ [Elocal_irq_disable; Estarlet_stm_power_off]))
    | FellThrough =>
      Spinning (World false
                  (trace w ++ [Elocal_irq_disable; Estarlet_stm_power_off]
                   ++ spin))
    end ∧
  remote_calls ([Elocal_irq_disable; primary; fallback] ++ spin)
    = [primary; fallback] ∧
  remote_calls ([Elocal_irq_disable; Estarlet_stm_power_off] ++ spin)
    = [Estarlet_stm_power_off].
Proof.
  intros primary fallback spin. repeat split.
  - destruct (f_es_reload_ios_and_launch F STARLET_TITLE_HBC) eqn:Hl.
    + now apply restart_launch_handled.
    + destruct (f_stm_restart F) eqn:Hr.
      * now apply restart_stm_handled.
      * now apply restart_spins.
  - destruct (f_stm_power_off F) eqn:Hp.
    + now apply power_off_handled.
    + now apply power_off_spins.
  - rewrite remote_calls_app. unfold spin.
    now rewrite remote_calls_cpu_relax.
  - rewrite remote_calls_app. unfold spin.
    now rewrite remote_calls_cpu_relax.
Qed.

(** With a firmware none of whose calls takes effect, three turns of the
    spin after a restart. *)
Example restart_unresponsive :
  wii_restart 77 unresponsive 3 None running =
    Spinning (World false
                [Elocal_irq_disable; Estarlet_es_reload_ios_and_launch 77;
                 Estarlet_stm_restart; Ecpu_relax; Ecpu_relax; Ecpu_relax]).
Proof. reflexivity. Qed.

(** Whatever the firmware does, a restart makes the primary call first
    and never more than the two remote calls. *)
Lemma restart_remote_calls (STARLET_TITLE_HBC : Z) (F : firmware)
    (cmd : option string) (w : world) fuel :
  ∃ t,
    trace (final (wii_restart STARLET_TITLE_HBC F fuel cmd w))
      = trace w ++ t ∧
    irqs_enabled (final (wii_restart STARLET_TITLE_HBC F fuel cmd w))
      = false ∧
    (remote_calls t = [Estarlet_es_reload_ios_and_launch STARLET_TITLE_HBC] ∨
     remote_calls t = [Estarlet_es_reload_ios_and_launch STARLET_TITLE_HBC;
                       Estarlet_stm_restart]).
Proof.
  destruct (f_es_reload_ios_and_launch F STARLET_TITLE_HBC) eqn:Hl.
  - rewrite (restart_launch_handled _ _ _ _ _ Hl). eexists.
    split; [reflexivity|]. split; [reflexivity|]. now left.
  - destruct (f_stm_restart F) eqn:Hr.
    + rewrite (restart_stm_handled _ _ _ _ _ Hl Hr). eexists.
      split; [reflexivity|]. split; [reflexivity|]. now right.
    + rewrite (restart_spins _ _ _ _ _ Hl Hr). eexists.
      split; [reflexivity|]. split; [reflexivity|]. right.
      rewrite remote_calls_app, remote_calls_cpu_relax. reflexivity.
Qed.

(** C9: [wii_machine_kexec] disables interrupts, then makes the remote
    call that discards the current I/O-subsystem session, and only when
    that call has come back hands over to [default_machine_kexec]; it
    calls nothing else, has no fallback and never spins. *)
Theorem machine_kexec_sequence (F : firmware) (image : Z) (w : world) :
  wii_machine_kexec F image w =
    match f_es_reload_ios_and_discard F with
    | Handled =>
      Gone (World false
              (trace w ++
               [Elocal_irq_disable; Estarlet_es_reload_ios_and_discard]))
    | FellThrough =>
      let w' :=
        World false
          (trace w ++
           [Elocal_irq_disable; Estarlet_es_reload_ios_and_discard;
            Edefault_machine_kexec image]) in
      match f_default_machine_kexec F image with
      | Handled => Gone w'
      | FellThrough => Returned tt w'
      end
    end.
Proof.
  run_M. destruct (f_es_reload_ios_and_discard F); cbn [irqs_enabled trace].
  - now rewrite <- !app_assoc.
  - destruct (f_default_machine_kexec F image);
      now rewrite <- !app_assoc.
Qed.

(** *** The other hooks of the board *)

(** X16: [wii_halt] is a restart without a command.  Whatever the
    firmware does and however long the run lasts, it never returns to
    its caller, interrupts are disabled from its first step to its last,
    it makes the primary remote call, and the fallback one only when the
    primary has come back, and no other; the command string of
    [wii_restart] plays no part. *)
Theorem halt_never_returns (STARLET_TITLE_HBC : Z) (F : firmware)
    (w : world) (fuel : nat) :
  let r := wii_halt STARLET_TITLE_HBC F fuel w in
  (∀ a w', r ≠ Returned a w') ∧
  irqs_enabled (final r) = false ∧
  (∃ t, trace (final r) = trace w ++ Elocal_irq_disable :: t ∧
        (remote_calls t
           = [Estarlet_es_reload_ios_and_launch STARLET_TITLE_HBC] ∧
         f_es_reload_ios_and_launch F STARLET_TITLE_HBC = Handled
         ∨
         remote_calls t
           = [Estarlet_es_reload_ios_and_launch STARLET_TITLE_HBC;
              Estarlet_stm_restart] ∧
         f_es_reload_ios_and_launch F STARLET_TITLE_HBC = FellThrough)) ∧
  ∀ cmd, wii_restart STARLET_TITLE_HBC F fuel cmd w = r.
Proof.
  intros r. subst r. unfold wii_halt.
  destruct (f_es_reload_ios_and_launch F STARLET_TITLE_HBC) eqn:Hl.
  - rewrite (restart_launch_handled _ _ _ _ _ Hl).
    split; [discriminate|]. split; [reflexivity|]. split.
    + eexists. split; [reflexivity|]. now left.
    + intros cmd. now apply restart_launch_handled.
  - destruct (f_stm_restart F) eqn:Hr.
    + rewrite (restart_stm_handled _ _ _ _ _ Hl Hr).
      split; [discriminate|]. split; [reflexivity|]. split.
      * eexists. split; [reflexivity|]. now right.
      * intros cmd. now apply restart_stm_handled.
    + rewrite (restart_spins _ _ _ _ _ Hl Hr).
      split; [discriminate|]. split; [reflexivity|]. split.
      * eexists. split; [reflexivity|]. right. split; [|reflexivity].
        change (Estarlet_es_reload_ios_and_launch STARLET_TITLE_HBC
                :: Estarlet_stm_restart :: replicate fuel Ecpu_relax)
          with ([Estarlet_es_reload_ios_and_launch STARLET_TITLE_HBC;
                 Estarlet_stm_restart] ++ replicate fuel Ecpu_relax).
        rewrite remote_calls_app, remote_calls_cpu_relax. reflexivity.
      * intros cmd. now apply restart_spins.
Qed.

(** X17: the kexec hooks in sequence.  [wii_machine_kexec_prepare]
    returns 0 and changes nothing; [wii_shutdown] quiesces the EXI bus
    and leaves the interrupt state as it found it; run before
    [wii_machine_kexec], they put the quiesce ahead of the disabling of
    interrupts, which comes ahead of the discard of the firmware session
    and of the jump. *)
Theorem kexec_hooks_in_sequence (F : firmware) (image : Z) (w : world) :
  wii_machine_kexec_prepare image w = Returned 0 w ∧
  wii_shutdown w
    = Returned tt (World (irqs_enabled w) (trace w ++ [Eexi_quiesce])) ∧
  (wii_machine_kexec_prepare image;; wii_shutdown;;
   wii_machine_kexec F image) w =
    match f_es_reload_ios_and_discard F with
    | Handled =>
      Gone (World false
              (trace w ++
               [Eexi_quiesce; Elocal_irq_disable;
                Estarlet_es_reload_ios_and_discard]))
    | FellThrough =>
      let w' :=
        World false
          (trace w ++
           [Eexi_quiesce; Elocal_irq_disable;
            Estarlet_es_reload_ios_and_discard;
            Edefault_machine_kexec image]) in
      match f_default_machine_kexec F image with
      | Handled => Gone w'
      | FellThrough => Returned tt w'
      end
    end.
Proof.
  split; [reflexivity|]. split; [reflexivity|].
  unfold wii_machine_kexec_prepare. run_M.
  destruct (f_es_reload_ios_and_discard F); cbn [irqs_enabled trace].
  - now rewrite <- !app_assoc.
  - destruct (f_default_machine_kexec F image);
      now rewrite <- !app_assoc.
Qed.

End WiiSpec.
